(** * canChat backend: room / session / message state engine

    A shallow embedding of the Motoko actor [canChatBackend]
    (the backend canister of canChat) together with the properties of its
    code generator, its room store and its public calls.

    Conventions of the embedding.
    - [Nat] is [N], [Int] is [Z], [Text] is [string]; [Nat8] is an [N] whose
      arithmetic traps above 255, as Motoko's bounded naturals do.
    - A trap (failed [assert], arithmetic overflow) is the [Trap] outcome.
    - [HashMap.HashMap<Text, _>] is a [gmap string _].
    - [Time.now()] and the entropy returned by [await Random.blob()] are
      inputs of the calls.  The system time is constant while one message
      executes and may advance at every [await], so each straight-line
      segment of a call takes one time argument.
    - An [await] is a commit point of the actor: other messages may run
      before the call resumes.  Each public call is given twice, as the
      function that runs its segments back to back, and as the transitions
      of the actor ([step]) in which suspended calls wait in a pool. *)

From Stdlib Require Import ZArith NArith Lia.
From Stdlib.Strings Require Import Byte Ascii.
From stdpp Require Import base option list gmap strings pretty sorting.

Local Open Scope N_scope.

(** ** Outcomes of code that can trap *)

Inductive outcome (A : Type) : Type :=
  | Ret (a : A)
  | Trap.
Arguments Ret {A} a.
Arguments Trap {A}.

(** ** Types of the actor *)

Abbreviation RoomCode := string (only parsing).
Abbreviation SessionId := string (only parsing).
Abbreviation Principal := string (only parsing).

Record User := mkUser {
  sessionId : SessionId;
  principal : Principal;
  displayName : string;
  joinedAt : Z;
}.

Record Message := mkMessage {
  id : N;
  sender : SessionId;
  senderName : string;
  content : string;
  timestamp : Z;
}.

Record Room := mkRoom {
  code : RoomCode;
  creator : SessionId;
  participants : list User;
  messages : list Message;
  createdAt : Z;
  lastActivity : Z;
}.

Inductive CreateRoomResult :=
  | CreateOk (roomCode : RoomCode) (room : Room) (sid : SessionId)
  | CreateErr (e : string).

Inductive JoinRoomResult :=
  | JoinOk (room : Room) (sid : SessionId)
  | JoinErr (e : string).

Inductive SendMessageResult :=
  | SendOk (m : Message)
  | SendErr (e : string).

(** ** State *)

Record State := mkState {
  rooms : gmap string Room;
  sessions : gmap string User;
  messageIdCounter : N;
  userCounter : N;
}.

Definition initial : State :=
  {| rooms := ∅; sessions := ∅; messageIdCounter := 0; userCounter := 0 |}.

Definition SESSION_TIMEOUT : Z := (20 * 60 * 1000000000)%Z.
Definition alphabet : string := "ABCDEFGHIJKLMNOPQRSTUVWXYZ0123456789".

(** ** Code generator *)

Module CodeGenerator.

(** [Nat8] addition: traps when the sum does not fit in eight bits. *)
Definition nat8_add (a b : N) : outcome N :=
  if 255 <? a + b then Trap else Ret (a + b).

(** The loop [while (m > 0) { p += 1; m /= 2 }] of [sampleIndex], with
    [p : Nat8].  No run takes more than 256 iterations, because the 256th
    increment of [p] traps. *)
Fixpoint bitWidth_loop (fuel : nat) (p m : N) : option (outcome N) :=
  if 0 <? m then
    match fuel with
    | O => None
    | S fuel' =>
        match nat8_add p 1 with
        | Trap => Some Trap
        | Ret p' => bitWidth_loop fuel' p' (m / 2)
        end
    end
  else Some (Ret p).

Definition bitWidth (m : N) : option (outcome N) := bitWidth_loop 256 0 m.

(** [Random.Finite] is a class of the Motoko base library, not of this
    actor: an iterator over the bytes of an entropy blob.  The state of the
    object is the bytes not yet consumed.  The properties below rest on the
    test [k < n] of [sampleIndex], not on the values [range] produces. *)
Definition Finite := list byte.

(** [Finite.range(p)]: whole bytes are accumulated while at least eight bits
    are still wanted, then the low bits of one more byte; [null] when the
    bytes run out while bits are still wanted. *)
Fixpoint range_loop (it : list byte) (pp acc : N) : option N * Finite :=
  match it with
  | [] => (if pp =? 0 then Some acc else None, [])
  | i :: it' =>
      if 8 <=? pp then range_loop it' (pp - 8) (acc * 256 + Byte.to_N i)
      else if pp =? 0 then (Some acc, it')
      else (Some (acc * 2 ^ pp + N.land (Byte.to_N i) (N.shiftr 255 (8 - pp))), it')
  end.

Definition range (f : Finite) (p : N) : option N * Finite := range_loop f p 0.

(** [sampleIndex(f, n)].  The result carries the state in which the call
    leaves the entropy object [f].  The recursion retries only after
    [f.range] consumed a byte, so [S (length f)] levels are enough. *)
Fixpoint sampleIndex_rec (fuel : nat) (f : Finite) (n : N)
  : option (outcome (option N * Finite)) :=
  match fuel with
  | O => None
  | S fuel' =>
      if negb (0 <? n) then Some Trap else
      match bitWidth (n - 1) with
      | None => None
      | Some Trap => Some Trap
      | Some (Ret p) =>
          match range f p with
          | (Some k, f') =>
              if k <? n then Some (Ret (Some k, f'))
              else sampleIndex_rec fuel' f' n
          | (None, f') => Some (Ret (None, f'))
          end
      end
  end.

Definition sampleIndex (f : Finite) (n : N) : option (outcome (option N * Finite)) :=
  sampleIndex_rec (S (length f)) f n.

(** [charAt(t, idx)]: walks the characters of [t]; the [assert false] after
    the loop is the [Trap] of the empty case. *)
Fixpoint charAt_from (t : string) (i idx : N) : outcome ascii :=
  match t with
  | EmptyString => Trap
  | String c t' => if i =? idx then Ret c else charAt_from t' (i + 1) idx
  end.

Definition charAt (t : string) (idx : N) : outcome ascii := charAt_from t 0 idx.

(** [alphabet.size()] *)
Definition size (t : string) : N := N.of_nat (String.length t).

(** The loop shared by [generateRoomCode] and [generateSessionId]:
    [while (i < len) { switch (sampleIndex(f, n)) ... }].  [blobs] are the
    results of the [await Random.blob()] still to come; when a refill is
    needed and none is left the call stays suspended ([Ret None]). *)
Fixpoint generate_loop (fuel : nat) (len : nat) (blobs : list Finite)
    (f : Finite) (acc : string) (i : nat) : option (outcome (option string)) :=
  if (i <? len)%nat then
    match fuel with
    | O => None
    | S fuel' =>
        match sampleIndex f (size alphabet) with
        | None => None
        | Some Trap => Some Trap
        | Some (Ret (Some j, f')) =>
            match charAt alphabet j with
            | Trap => Some Trap
            | Ret c => generate_loop fuel' len blobs f' (acc +:+ String c EmptyString) (S i)
            end
        | Some (Ret (None, _)) =>
            match blobs with
            | [] => Some (Ret None)
            | b :: blobs' => generate_loop fuel' len blobs' b acc i
            end
        end
    end
  else Some (Ret (Some acc)).

Definition generate (len : nat) (blobs : list Finite) : option (outcome (option string)) :=
  match blobs with
  | [] => Some (Ret None)
  | b :: blobs' => generate_loop (S (len + length blobs')) len blobs' b "" 0
  end.

Definition generateRoomCode := generate 6.
Definition generateSessionId := generate 12.

End CodeGenerator.

(** ** Room store and session registry *)

Local Open Scope Z_scope.

Definition setRooms (r : gmap string Room) (st : State) : State :=
  {| rooms := r; sessions := sessions st;
     messageIdCounter := messageIdCounter st; userCounter := userCounter st |}.

(** [rooms.put(roomCode, room)] and [rooms.delete(roomCode)] *)
Definition putRoom (roomCode : RoomCode) (room : Room) (st : State) : State :=
  setRooms (<[roomCode := room]> (rooms st)) st.

Definition deleteRoom (roomCode : RoomCode) (st : State) : State :=
  setRooms (delete roomCode (rooms st)) st.

Definition isRoomValid (now : Z) (roomCode : RoomCode) (st : State) : bool :=
  match rooms st !! roomCode with
  | Some room => now - lastActivity room <=? SESSION_TIMEOUT
  | None => false
  end.

(** The two passes of [cleanupExpiredRooms] over a map: collect the keys
    whose entry is stale into a buffer, then delete each collected key. *)
Definition expiredKeys {V} (stale : V → bool) (m : gmap string V) : list string :=
  (filter (λ kv, stale kv.2 = true) (map_to_list m)).*1.

Definition deleteAll {V} (ks : list string) (m : gmap string V) : gmap string V :=
  foldl (λ acc k, delete k acc) m ks.

Definition sweep {V} (stale : V → bool) (m : gmap string V) : gmap string V :=
  deleteAll (expiredKeys stale m) m.

Definition cleanupExpiredRooms (now : Z) (st : State) : State :=
  {| rooms := sweep (λ room, now - lastActivity room >? SESSION_TIMEOUT) (rooms st);
     sessions := sweep (λ user, now - joinedAt user >? SESSION_TIMEOUT) (sessions st);
     messageIdCounter := messageIdCounter st;
     userCounter := userCounter st |}.

Definition createOrGetUser (sid : SessionId) (p : Principal) (now : Z) (st : State)
  : User * State :=
  match sessions st !! sid with
  | Some user => (user, st)
  | None =>
      let uc := (userCounter st + 1)%N in
      let user := {| sessionId := sid; principal := p;
                     displayName := "User " +:+ pretty uc; joinedAt := now |} in
      (user, {| rooms := rooms st; sessions := <[sid := user]> (sessions st);
                messageIdCounter := messageIdCounter st; userCounter := uc |})
  end.

(** [Array.find<User>(ps, func(u) = u.sessionId == sid)] *)
Definition findUser (sid : SessionId) (ps : list User) : option User :=
  List.find (λ u, bool_decide (sessionId u = sid)) ps.

(** ** Public calls *)

(** *** createRoom *)

(** The test of the loop [while (rooms.get(roomCode) != null and
    attempts < 10)] of [createRoom], and the loop when no other message runs
    in between.  [codes k] is the
    result of the [k]-th [await generateRoomCode()] of the call, [codes 0]
    being the one before the loop. *)
Definition createRoom_test (rs : gmap string Room) (roomCode : RoomCode)
    (attempts : nat) : bool :=
  bool_decide (rs !! roomCode ≠ None) && (attempts <? 10)%nat.

Fixpoint createRoom_loop (fuel : nat) (codes : nat → RoomCode) (rs : gmap string Room)
    (roomCode : RoomCode) (attempts : nat) : RoomCode * nat :=
  if createRoom_test rs roomCode attempts then
    match fuel with
    | O => (roomCode, attempts)
    | S fuel' => createRoom_loop fuel' codes rs (codes (S attempts)) (S attempts)
    end
  else (roomCode, attempts).

Definition newRoom (roomCode : RoomCode) (sid : SessionId) (user : User) (now : Z) : Room :=
  {| code := roomCode; creator := sid; participants := [user]; messages := [];
     createdAt := now; lastActivity := now |}.

(** What [createRoom] does from the end of its loop on. *)
Definition createRoom_finish (sid : SessionId) (user : User) (roomCode : RoomCode)
    (attempts : nat) (now : Z) (st : State) : CreateRoomResult * State :=
  if (10 <=? attempts)%nat then (CreateErr "Failed to generate unique room code", st)
  else
    let room := newRoom roomCode sid user now in
    (CreateOk roomCode room sid, putRoom roomCode room st).

Definition createRoom (caller : Principal) (now0 : Z) (sid : SessionId) (now1 : Z)
    (codes : nat → RoomCode) (now2 : Z) (st : State) : CreateRoomResult * State :=
  let st0 := cleanupExpiredRooms now0 st in
  let '(user, st1) := createOrGetUser sid caller now1 st0 in
  let '(roomCode, attempts) := createRoom_loop 10 codes (rooms st1) (codes 0%nat) 0 in
  createRoom_finish sid user roomCode attempts now2 st1.

(** *** joinRoom *)

Inductive JoinEnter :=
  | JoinAwait (room : Room) (st : State)
  | JoinDone (r : JoinRoomResult) (st : State).

(** [joinRoom] up to its [await generateSessionId()]. *)
Definition joinRoom_enter (roomCode : RoomCode) (now : Z) (st : State) : JoinEnter :=
  let st := cleanupExpiredRooms now st in
  match rooms st !! roomCode with
  | Some room =>
      if negb (isRoomValid now roomCode st)
      then JoinDone (JoinErr "Room has expired") (deleteRoom roomCode st)
      else JoinAwait room st
  | None => JoinDone (JoinErr "Room not found") st
  end.

(** [joinRoom] after the [await]; [room] is the value read before it. *)
Definition joinRoom_resume (caller : Principal) (roomCode : RoomCode) (room : Room)
    (sid : SessionId) (now : Z) (st : State) : JoinRoomResult * State :=
  let '(user, st) := createOrGetUser sid caller now st in
  match findUser sid (participants room) with
  | Some _ => (JoinOk room sid, st)
  | None =>
      let updatedRoom :=
        {| code := code room; creator := creator room;
           participants := participants room ++ [user];
           messages := messages room; createdAt := createdAt room;
           lastActivity := now |} in
      (JoinOk updatedRoom sid, putRoom roomCode updatedRoom st)
  end.

Definition joinRoom (caller : Principal) (roomCode : RoomCode) (now0 : Z)
    (sid : SessionId) (now1 : Z) (st : State) : JoinRoomResult * State :=
  match joinRoom_enter roomCode now0 st with
  | JoinDone r st' => (r, st')
  | JoinAwait room st' => joinRoom_resume caller roomCode room sid now1 st'
  end.

(** *** sendMessage *)

Definition sendMessage (caller : Principal) (roomCode : RoomCode) (sid : SessionId)
    (text : string) (now : Z) (st : State) : SendMessageResult * State :=
  let st := cleanupExpiredRooms now st in
  match rooms st !! roomCode with
  | Some room =>
      if negb (isRoomValid now roomCode st)
      then (SendErr "Room has expired", deleteRoom roomCode st)
      else
        match findUser sid (participants room) with
        | Some user =>
            let message :=
              {| id := messageIdCounter st; sender := sid;
                 senderName := displayName user; content := text;
                 timestamp := now |} in
            let st := {| rooms := rooms st; sessions := sessions st;
                         messageIdCounter := (messageIdCounter st + 1)%N;
                         userCounter := userCounter st |} in
            let updatedRoom :=
              {| code := code room; creator := creator room;
                 participants := participants room;
                 messages := messages room ++ [message];
                 createdAt := createdAt room; lastActivity := now |} in
            (SendOk message, putRoom roomCode updatedRoom st)
        | None => (SendErr "You are not a member of this room", st)
        end
  | None => (SendErr "Room not found", st)
  end.

(** *** Queries *)

Definition getRoom (roomCode : RoomCode) (st : State) : option Room :=
  rooms st !! roomCode.

Definition getMessages (roomCode : RoomCode) (st : State) : list Message :=
  match rooms st !! roomCode with
  | Some room => messages room
  | None => []
  end.

(** *** endRoom and leaveRoom *)

Definition endRoom (caller : Principal) (roomCode : RoomCode) (sid : SessionId)
    (st : State) : bool * State :=
  match rooms st !! roomCode with
  | Some room =>
      if bool_decide (creator room = sid)
      then (true, deleteRoom roomCode st)
      else (false, st)
  | None => (false, st)
  end.

Definition leaveRoom (caller : Principal) (roomCode : RoomCode) (sid : SessionId)
    (now : Z) (st : State) : bool * State :=
  match rooms st !! roomCode with
  | Some room =>
      let updatedParticipants := filter (λ u, sessionId u ≠ sid) (participants room) in
      if (length updatedParticipants =? 0)%nat
      then (true, deleteRoom roomCode st)
      else
        let updatedRoom :=
          {| code := code room; creator := creator room;
             participants := updatedParticipants;
             messages := messages room; createdAt := createdAt room;
             lastActivity := now |} in
        (true, putRoom roomCode updatedRoom st)
  | None => (false, st)
  end.

Definition cleanup (now : Z) (st : State) : State := cleanupExpiredRooms now st.

(** ** The actor

    A call that reached an [await] waits in [inflight] with the local
    variables it will use when it resumes; any message may run meanwhile. *)

Inductive Pending :=
  | CreateSession (caller : Principal)
      (* createRoom, at [await generateSessionId()] *)
  | CreateCode (sid : SessionId) (user : User) (attempts : nat)
      (* createRoom, at an [await generateRoomCode()] *)
  | JoinSession (caller : Principal) (roomCode : RoomCode) (room : Room).
      (* joinRoom, at [await generateSessionId()] *)

Record Actor := mkActor {
  store : State;
  inflight : list Pending;
}.

Definition actor0 : Actor := {| store := initial; inflight := [] |}.

(** What a call hands back to its caller when it completes. *)
Inductive Response :=
  | RCreate (r : CreateRoomResult)
  | RJoin (r : JoinRoomResult)
  | RSend (r : SendMessageResult)
  | RLeave (b : bool)
  | REnd (b : bool)
  | RCleanup.

Inductive step : Actor → option Response → Actor → Prop :=
  | step_create_enter a caller now :
      step a None
        {| store := cleanupExpiredRooms now (store a);
           inflight := CreateSession caller :: inflight a |}
  | step_create_session a l1 l2 caller sid now user st' :
      inflight a = l1 ++ CreateSession caller :: l2 →
      createOrGetUser sid caller now (store a) = (user, st') →
      step a None {| store := st'; inflight := l1 ++ CreateCode sid user 0 :: l2 |}
  | step_create_retry a l1 l2 sid user attempts roomCode :
      inflight a = l1 ++ CreateCode sid user attempts :: l2 →
      createRoom_test (rooms (store a)) roomCode attempts = true →
      step a None
        {| store := store a; inflight := l1 ++ CreateCode sid user (S attempts) :: l2 |}
  | step_create_finish a l1 l2 sid user attempts roomCode now r st' :
      inflight a = l1 ++ CreateCode sid user attempts :: l2 →
      createRoom_test (rooms (store a)) roomCode attempts = false →
      createRoom_finish sid user roomCode attempts now (store a) = (r, st') →
      step a (Some (RCreate r)) {| store := st'; inflight := l1 ++ l2 |}
  | step_join_await a caller roomCode now room st' :
      joinRoom_enter roomCode now (store a) = JoinAwait room st' →
      step a None
        {| store := st'; inflight := JoinSession caller roomCode room :: inflight a |}
  | step_join_done a (caller : Principal) roomCode now r st' :
      joinRoom_enter roomCode now (store a) = JoinDone r st' →
      step a (Some (RJoin r)) {| store := st'; inflight := inflight a |}
  | step_join_resume a l1 l2 caller roomCode room sid now r st' :
      inflight a = l1 ++ JoinSession caller roomCode room :: l2 →
      joinRoom_resume caller roomCode room sid now (store a) = (r, st') →
      step a (Some (RJoin r)) {| store := st'; inflight := l1 ++ l2 |}
  | step_send a caller roomCode sid text now r st' :
      sendMessage caller roomCode sid text now (store a) = (r, st') →
      step a (Some (RSend r)) {| store := st'; inflight := inflight a |}
  | step_leave a caller roomCode sid now b st' :
      leaveRoom caller roomCode sid now (store a) = (b, st') →
      step a (Some (RLeave b)) {| store := st'; inflight := inflight a |}
  | step_end a caller roomCode sid b st' :
      endRoom caller roomCode sid (store a) = (b, st') →
      step a (Some (REnd b)) {| store := st'; inflight := inflight a |}
  | step_cleanup a now :
      step a (Some RCleanup)
        {| store := cleanup now (store a); inflight := inflight a |}.

(** Executions, with the responses in the order they were given. *)
Inductive run : Actor → list Response → Actor → Prop :=
  | run_nil a : run a [] a
  | run_step a tr b o c :
      run a tr b → step b o c → run a (tr ++ option_list o) c.

(** The ids of the messages returned by the successful [sendMessage] calls
    of a trace. *)
Definition sentId (r : Response) : option N :=
  match r with
  | RSend (SendOk m) => Some (id m)
  | _ => None
  end.

Definition sentIds (tr : list Response) : list N := omap sentId tr.

(** The room a response carries, if any. *)
Definition responseRoom (r : Response) : option Room :=
  match r with
  | RCreate (CreateOk _ room _) => Some room
  | RJoin (JoinOk room _) => Some room
  | _ => None
  end.

(** [getAllSessions]: [Iter.toArray(sessions.entries())], in the order the
    map enumerates its entries. *)
Definition getAllSessions (st : State) : list (string * User) :=
  map_to_list (sessions st).

(** ** Well-formed session registry *)

(** Every record of the registry carries a name "User k" with [k] between 1
    and the user counter, and no two session ids share a name. *)
Definition registry_ok (st : State) : Prop :=
  (∀ sid user, sessions st !! sid = Some user →
     ∃ k, (1 ≤ k ≤ userCounter st)%N ∧ displayName user = "User " +:+ pretty k)
  ∧ (∀ sid1 sid2 u1 u2,
     sessions st !! sid1 = Some u1 → sessions st !! sid2 = Some u2 →
     displayName u1 = displayName u2 → sid1 = sid2).

(** ** Well-formed rooms, stores and actors *)

(** A room is well formed below the counter [cnt] when no two participants
    share a session id, the message ids increase strictly with the position
    and all of them are below [cnt]. *)
Definition room_ok (cnt : N) (room : Room) : Prop :=
  NoDup (sessionId <$> participants room)
  ∧ StronglySorted N.lt (id <$> messages room)
  ∧ Forall (λ i, (i < cnt)%N) (id <$> messages room).

Definition store_ok (st : State) : Prop :=
  (∀ roomCode room, rooms st !! roomCode = Some room →
     room_ok (messageIdCounter st) room)
  ∧ (∀ sid user, sessions st !! sid = Some user → sessionId user = sid).

Definition pending_ok (cnt : N) (p : Pending) : Prop :=
  match p with
  | CreateSession _ => True
  | CreateCode sid user _ => sessionId user = sid
  | JoinSession _ _ room => room_ok cnt room
  end.

Definition actor_ok (a : Actor) : Prop :=
  store_ok (store a)
  ∧ Forall (pending_ok (messageIdCounter (store a))) (inflight a).

Definition distinctParticipants (r : Response) : Prop :=
  ∀ room, responseRoom r = Some room → NoDup (sessionId <$> participants room).

Definition trace_ok (cnt : N) (tr : list Response) : Prop :=
  StronglySorted N.lt (sentIds tr)
  ∧ Forall (λ i, (i < cnt)%N) (sentIds tr)
  ∧ Forall distinctParticipants tr.

(** A room is filed under its own code, in the store and in the calls that
    wait to put one back. *)
Definition pending_code_ok (p : Pending) : Prop :=
  match p with
  | JoinSession _ roomCode room => code room = roomCode
  | _ => True
  end.

Definition codes_ok (a : Actor) : Prop :=
  (∀ roomCode room, rooms (store a) !! roomCode = Some room → code room = roomCode)
  ∧ Forall pending_code_ok (inflight a).

(** ** A sample session

    The scenario of the specification: a room is created under the code
    AB12CD, its creator says hi, a second session joins.  The states and
    inputs below are the concrete points at which the statements of the next
    part are exercised. *)

Definition minutes (m : Z) : Z := m * 60 * 1000000000.

Definition user1 : User :=
  {| sessionId := "SESSIONAAAAA"; principal := "alice";
     displayName := "User 1"; joinedAt := 0 |}.

Definition user2 : User :=
  {| sessionId := "SESSIONBBBBB"; principal := "bob";
     displayName := "User 2"; joinedAt := 2 |}.

Definition hi : Message :=
  {| id := 0; sender := "SESSIONAAAAA"; senderName := "User 1";
     content := "hi"; timestamp := 1 |}.

Definition room_hi : Room :=
  {| code := "AB12CD"; creator := "SESSIONAAAAA"; participants := [user1];
     messages := [hi]; createdAt := 0; lastActivity := 1 |}.

Definition room_joined : Room :=
  {| code := "AB12CD"; creator := "SESSIONAAAAA"; participants := [user1; user2];
     messages := [hi]; createdAt := 0; lastActivity := 2 |}.

Definition st_created : State :=
  (createRoom "alice" 0 "SESSIONAAAAA" 0 (λ _, "AB12CD") 0 initial).2.

Definition st_hi : State :=
  (sendMessage "alice" "AB12CD" "SESSIONAAAAA" "hi" 1 st_created).2.

Definition st_joined : State :=
  (joinRoom "bob" "AB12CD" 2 "SESSIONBBBBB" 2 st_hi).2.

(** Ten generated codes that hit the stored room, then a free one. *)
Definition colliding (k : nat) : RoomCode :=
  if (k <? 10)%nat then "AB12CD" else "ZZ99ZZ".

(** The responses of the sample session and the actor it leaves. *)
Definition sample_trace : list Response :=
  [ RCreate (createRoom "alice" 0 "SESSIONAAAAA" 0 (λ _, "AB12CD") 0 initial).1;
    RSend (sendMessage "alice" "AB12CD" "SESSIONAAAAA" "hi" 1 st_created).1;
    RJoin (joinRoom "bob" "AB12CD" 2 "SESSIONBBBBB" 2 st_hi).1;
    RSend (sendMessage "bob" "AB12CD" "SESSIONBBBBB" "hello" 3 st_joined).1 ].

Definition hello : Message :=
  {| id := 1; sender := "SESSIONBBBBB"; senderName := "User 2";
     content := "hello"; timestamp := 3 |}.

Definition room_replied : Room :=
  {| code := "AB12CD"; creator := "SESSIONAAAAA"; participants := [user1; user2];
     messages := [hi; hello]; createdAt := 0; lastActivity := 3 |}.

Definition sample_actor : Actor :=
  {| store := (sendMessage "bob" "AB12CD" "SESSIONBBBBB" "hello" 3 st_joined).2;
     inflight := [] |}.

(** Two entropy blobs for the code generator: the first runs out after five
    characters, the second supplies the sixth. *)
Definition sample_blobs : list CodeGenerator.Finite :=
  [ [x00; x01; x02; xff; x23; x24; x41]; [x05; x06] ]%list.

(** * Properties *)

(** ** Code generator *)

Section CodeGeneratorFacts.
Import CodeGenerator.
Local Open Scope N_scope.

Lemma div2_pos_xO q : N.pos q~0 / 2 = N.pos q.
Proof. rewrite <- N.div2_div. reflexivity. Qed.

Lemma div2_pos_xI q : N.pos q~1 / 2 = N.pos q.
Proof. rewrite <- N.div2_div. reflexivity. Qed.

(** The loop counts the binary digits of [m], and traps when the count
    leaves [Nat8]; 256 iterations always decide which. *)
Lemma bitWidth_loop_pos : ∀ fuel p q,
  p ≤ 255 → 256 ≤ p + N.of_nat fuel →
  bitWidth_loop fuel p (N.pos q) =
    if 255 <? p + N.pos (Pos.size q) then Some Trap
    else Some (Ret (p + N.pos (Pos.size q))).
Proof.
  induction fuel as [|fuel IH]; intros p q Hp Hfuel; [simpl in Hfuel; lia|].
  cbn [bitWidth_loop]. change (0 <? N.pos q) with true. cbv iota. unfold nat8_add.
  destruct (N.ltb_spec 255 (p + 1)) as [Hp1 | Hp1].
  { destruct (N.ltb_spec 255 (p + N.pos (Pos.size q))); [done | lia]. }
  destruct q as [q | q |]; cbn [Pos.size].
  - rewrite div2_pos_xI, IH by lia.
    replace (p + 1 + N.pos (Pos.size q)) with (p + N.pos (Pos.succ (Pos.size q))) by lia.
    done.
  - rewrite div2_pos_xO, IH by lia.
    replace (p + 1 + N.pos (Pos.size q)) with (p + N.pos (Pos.succ (Pos.size q))) by lia.
    done.
  - change (1 / 2) with 0.
    destruct (N.ltb_spec 255 (p + 1)); [lia|]. destruct fuel; reflexivity.
Qed.

Lemma bitWidth_size m :
  bitWidth m = if 255 <? N.size m then Some Trap else Some (Ret (N.size m)).
Proof.
  unfold bitWidth. destruct m as [|q]; [reflexivity|].
  rewrite bitWidth_loop_pos by (simpl; lia). reflexivity.
Qed.

(** [N.size m] is the least [p] with [m < 2 ^ p]. *)
Lemma size_least m p : N.size m ≤ p ↔ m < 2 ^ p.
Proof.
  destruct (N.eq_dec m 0) as [-> | Hm].
  { simpl. split; [intros _; apply N.neq_0_lt_0, N.pow_nonzero; lia | lia]. }
  rewrite N.size_log2 by done.
  pose proof (N.log2_spec m ltac:(lia)) as [Hlo Hhi].
  split; intros H.
  - eapply N.lt_le_trans; [exact Hhi|]. apply N.pow_le_mono_r; lia.
  - destruct (N.le_gt_cases (N.succ (N.log2 m)) p) as [|Hlt]; [done|].
    assert (2 ^ p ≤ 2 ^ N.log2 m) by (apply N.pow_le_mono_r; lia). lia.
Qed.

(** [range] never gives bytes back, answers [0] when asked for no bits, and
    consumes a byte whenever it answers a request for at least one bit. *)
Lemma range_loop_length it : ∀ pp acc r it',
  range_loop it pp acc = (r, it') → (length it' ≤ length it)%nat.
Proof.
  induction it as [|i it IH]; intros pp acc r it' H; cbn [range_loop] in H.
  - injection H as _ <-. done.
  - destruct (8 <=? pp).
    + apply IH in H. simpl. lia.
    + destruct (pp =? 0); injection H as _ <-; simpl; lia.
Qed.

Lemma range_loop_zero it acc : (range_loop it 0 acc).1 = Some acc.
Proof. destruct it; reflexivity. Qed.

Lemma range_loop_consumes it pp acc k it' :
  0 < pp → range_loop it pp acc = (Some k, it') → (length it' < length it)%nat.
Proof.
  intros Hpp H. destruct it as [|i it]; cbn [range_loop] in H.
  - destruct (N.eqb_spec pp 0); [lia | discriminate].
  - destruct (8 <=? pp).
    + apply range_loop_length in H. simpl. lia.
    + destruct (pp =? 0); injection H as _ <-; simpl; lia.
Qed.

(** [sampleIndex] returns: it neither traps nor recurses for ever, and what
    it returns is below [n]. *)
Lemma sampleIndex_rec_returns n p :
  0 < n → bitWidth (n - 1) = Some (Ret p) →
  ∀ fuel f, (length f < fuel)%nat →
    ∃ r f', sampleIndex_rec fuel f n = Some (Ret (r, f'))
            ∧ (∀ k, r = Some k → k < n) ∧ (length f' ≤ length f)%nat.
Proof.
  intros Hn Hp. induction fuel as [|fuel IH]; intros f Hfuel; [lia|].
  cbn [sampleIndex_rec]. destruct (N.ltb_spec 0 n); [|lia]. cbn [negb].
  rewrite Hp. destruct (range f p) as [[k|] f'] eqn:Hr.
  - destruct (N.ltb_spec k n) as [Hk | Hk].
    + exists (Some k), f'. split; [done|]. split.
      * by intros ? [= <-].
      * by eapply range_loop_length.
    + assert (0 < p).
      { destruct (N.eq_dec p 0) as [-> | ]; [|lia].
        pose proof (range_loop_zero f 0) as Hz. unfold range in Hr.
        rewrite Hr in Hz. injection Hz as ->. lia. }
      apply range_loop_consumes in Hr; [|done].
      destruct (IH f') as (r & f'' & -> & ? & ?); [lia|].
      exists r, f''. repeat split; [done | lia].
  - exists None, f'. split; [done|]. split; [done|]. by eapply range_loop_length.
Qed.

Lemma charAt_from_found t : ∀ i idx,
  i ≤ idx → idx < i + size t → ∃ c, charAt_from t i idx = Ret c.
Proof.
  unfold size. induction t as [|c t IH]; intros i idx Hlo Hhi; simpl in *; [lia|].
  destruct (N.eqb_spec i idx); [by eexists|]. apply IH; lia.
Qed.


Lemma bitWidth_alphabet : bitWidth (size alphabet - 1) = Some (Ret 6).
Proof. reflexivity. Qed.

(** The generation loop returns a code or stays suspended on entropy; it
    does not trap. *)
Lemma generate_loop_returns len : ∀ fuel blobs f acc i,
  (len - i + length blobs < fuel)%nat →
  ∃ r, generate_loop fuel len blobs f acc i = Some (Ret r).
Proof.
  induction fuel as [|fuel IH]; intros blobs f acc i Hfuel; [lia|].
  cbn [generate_loop]. destruct (Nat.ltb_spec i len) as [Hi | Hi]; [|by eexists].
  destruct (sampleIndex_rec_returns (size alphabet) 6 eq_refl bitWidth_alphabet
              (S (length f)) f) as (r & f' & Hs & Hr & _); [lia|].
  fold (sampleIndex f (size alphabet)) in Hs. rewrite Hs.
  destruct r as [j|].
  - destruct (charAt_from_found alphabet 0 j) as [c Hc]; [lia | by apply Hr |].
    fold (charAt alphabet j) in Hc. rewrite Hc. apply IH. lia.
  - destruct blobs as [|b blobs]; [by eexists|]. apply IH. simpl in Hfuel. lia.
Qed.

End CodeGeneratorFacts.

(** ** Room store *)

Section StoreFacts.
Local Open Scope Z_scope.

Lemma lookup_deleteAll {V} (ks : list string) : ∀ (m : gmap string V) k,
  deleteAll ks m !! k = if decide (k ∈ ks) then None else m !! k.
Proof.
  unfold deleteAll. induction ks as [|k' ks IH]; intros m k; cbn [foldl].
  - destruct (decide (k ∈ [])) as [Hin | _]; [by apply elem_of_nil in Hin | done].
  - rewrite IH. destruct (decide (k ∈ ks)) as [Hin | Hnin].
    + destruct (decide (k ∈ k' :: ks)) as [_ | Hn]; [done|]. exfalso. apply Hn. by right.
    + destruct (decide (k = k')) as [-> | Hne].
      * rewrite lookup_delete_eq.
        destruct (decide (k' ∈ k' :: ks)) as [_ | Hn]; [done|]. exfalso. apply Hn. by left.
      * rewrite lookup_delete_ne by done.
        destruct (decide (k ∈ k' :: ks)) as [[?|?]%elem_of_cons | _]; done.
Qed.

Lemma elem_of_expiredKeys {V} (stale : V → bool) (m : gmap string V) k :
  k ∈ expiredKeys stale m ↔ ∃ v, m !! k = Some v ∧ stale v = true.
Proof.
  unfold expiredKeys. rewrite list_elem_of_fmap. split.
  - intros ([k' v] & -> & [Hs Hin]%list_elem_of_filter).
    apply elem_of_map_to_list in Hin. eauto.
  - intros (v & Hk & Hs). exists (k, v). split; [done|].
    apply list_elem_of_filter. split; [done|]. by apply elem_of_map_to_list.
Qed.

(** A sweep removes exactly the stale entries. *)
Lemma lookup_sweep {V} (stale : V → bool) (m : gmap string V) k :
  sweep stale m !! k =
    match m !! k with
    | Some v => if stale v then None else Some v
    | None => None
    end.
Proof.
  unfold sweep. rewrite lookup_deleteAll.
  destruct (decide (k ∈ expiredKeys stale m)) as [Hin | Hnin].
  - apply elem_of_expiredKeys in Hin as (v & -> & ->). done.
  - destruct (m !! k) as [v|] eqn:Hk; [|done].
    destruct (stale v) eqn:Hs; [|done].
    exfalso. apply Hnin, elem_of_expiredKeys. eauto.
Qed.

Lemma lookup_sweep_Some {V} (stale : V → bool) (m : gmap string V) k v :
  sweep stale m !! k = Some v ↔ m !! k = Some v ∧ stale v = false.
Proof.
  rewrite lookup_sweep. destruct (m !! k) as [w|]; [|by split; [|intros []]].
  destruct (stale w) eqn:Hs.
  - split; [done | intros [[= ->] ?]; congruence].
  - split; [by intros [= ->] | by intros [? _]].
Qed.

Lemma rooms_cleanup now st roomCode room :
  rooms (cleanupExpiredRooms now st) !! roomCode = Some room ↔
  rooms st !! roomCode = Some room ∧ now - lastActivity room ≤ SESSION_TIMEOUT.
Proof.
  cbn [cleanupExpiredRooms rooms]. rewrite lookup_sweep_Some.
  rewrite Z.gtb_ltb, Z.ltb_ge. done.
Qed.

Lemma sessions_cleanup now st sid user :
  sessions (cleanupExpiredRooms now st) !! sid = Some user →
  sessions st !! sid = Some user.
Proof. cbn [cleanupExpiredRooms sessions]. rewrite lookup_sweep_Some. tauto. Qed.

(** After the sweep of a call, a stored room passes [isRoomValid] at the
    same instant. *)
Lemma isRoomValid_cleanup now st roomCode room :
  rooms (cleanupExpiredRooms now st) !! roomCode = Some room →
  isRoomValid now roomCode (cleanupExpiredRooms now st) = true.
Proof.
  intros H. unfold isRoomValid. rewrite H.
  apply rooms_cleanup in H as [_ H]. by apply Z.leb_le.
Qed.

Lemma rooms_createOrGetUser sid p now st :
  rooms (createOrGetUser sid p now st).2 = rooms st.
Proof. unfold createOrGetUser. by destruct (sessions st !! sid). Qed.

Lemma counter_createOrGetUser sid p now st :
  messageIdCounter (createOrGetUser sid p now st).2 = messageIdCounter st.
Proof. unfold createOrGetUser. by destruct (sessions st !! sid). Qed.

Lemma findUser_Some sid ps u :
  findUser sid ps = Some u → u ∈ ps ∧ sessionId u = sid.
Proof.
  unfold findUser. intros H. apply find_some in H as [Hin Hb].
  apply bool_decide_eq_true in Hb. split; [by apply list_elem_of_In | done].
Qed.

Lemma findUser_None sid ps :
  findUser sid ps = None ↔ sid ∉ sessionId <$> ps.
Proof.
  unfold findUser. induction ps as [|u ps IH]; simpl.
  - split; [intros _; apply not_elem_of_nil | done].
  - rewrite not_elem_of_cons. case_bool_decide as Hu.
    + split; [done | by intros [? _]].
    + rewrite IH. split; [by intros ? | by intros [_ ?]].
Qed.

Lemma findUser_member sid ps :
  sid ∈ sessionId <$> ps → ∃ u, findUser sid ps = Some u.
Proof.
  intros Hin. destruct (findUser sid ps) as [u|] eqn:Hf; [by eexists|].
  by apply findUser_None in Hf.
Qed.

(** Filtering out a session id that is not there changes nothing. *)
Lemma filter_non_member sid (ps : list User) :
  sid ∉ sessionId <$> ps → filter (λ u, sessionId u ≠ sid) ps = ps.
Proof.
  induction ps as [|u ps IH]; [done|]. rewrite fmap_cons, not_elem_of_cons.
  intros [Hne Hnin]. rewrite filter_cons_True by done. by rewrite IH.
Qed.

End StoreFacts.

(** ** Reads, joins, leaves and ends *)

Section CallFacts.
Local Open Scope Z_scope.

Lemma room_hi_stored : rooms st_hi !! "AB12CD" = Some room_hi.
Proof. vm_compute. reflexivity. Qed.

Lemma room_joined_stored : rooms st_joined !! "AB12CD" = Some room_joined.
Proof. vm_compute. reflexivity. Qed.

(** C2, as stated, fails: 21 minutes after the last activity of the room
    AB12CD, with no call in between, [getMessages] still returns the stored
    message and not the empty sequence. *)
Lemma getMessages_stale_room_not_empty :
  rooms st_hi !! "AB12CD" = Some room_hi
  ∧ (minutes 21 + 1) - lastActivity room_hi > SESSION_TIMEOUT
  ∧ getMessages "AB12CD" st_hi = [hi]
  ∧ getMessages "AB12CD" st_hi ≠ [].
Proof. vm_compute. repeat split; discriminate. Qed.

(** C2, amended: [getMessages] returns the stored messages of every stored
    room, whatever its [lastActivity] (the read checks no expiry); for a room
    whose [lastActivity] is more than [SESSION_TIMEOUT] before [now] it
    returns the empty sequence, and [getRoom] returns nothing, once a sweep
    ([cleanupExpiredRooms], which opens createRoom, joinRoom, sendMessage and
    cleanup) has run at [now]. *)
Theorem getMessages_reads_stored_room st roomCode room now :
  rooms st !! roomCode = Some room →
  getMessages roomCode st = messages room
  ∧ (now - lastActivity room > SESSION_TIMEOUT →
       getMessages roomCode (cleanupExpiredRooms now st) = []
       ∧ getRoom roomCode (cleanupExpiredRooms now st) = None).
Proof.
  intros Hroom. split; [unfold getMessages; by rewrite Hroom|].
  intros Hstale. unfold getMessages, getRoom.
  destruct (rooms (cleanupExpiredRooms now st) !! roomCode) as [r|] eqn:Hr; [|done].
  apply rooms_cleanup in Hr as [Hr Hlive].
  assert (r = room) as -> by congruence. lia.
Qed.

Lemma getMessages_reads_stored_room_witness :
  getMessages "AB12CD" st_hi = messages room_hi
  ∧ (minutes 21 + 1 - lastActivity room_hi > SESSION_TIMEOUT →
       getMessages "AB12CD" (cleanupExpiredRooms (minutes 21 + 1) st_hi) = []
       ∧ getRoom "AB12CD" (cleanupExpiredRooms (minutes 21 + 1) st_hi) = None).
Proof.
  apply (getMessages_reads_stored_room st_hi "AB12CD" room_hi (minutes 21 + 1)).
  vm_compute. reflexivity.
Defined.

(** C4: when the session id generated for a [joinRoom] on a live room is
    already among the room's participants, the call answers with the room as
    it is stored and leaves it stored as it was: no participant is appended,
    the membership keeps its size and [lastActivity] is not bumped. *)
Theorem joinRoom_member_idempotent caller roomCode now0 sid now1 st room :
  rooms st !! roomCode = Some room →
  now0 - lastActivity room ≤ SESSION_TIMEOUT →
  sid ∈ sessionId <$> participants room →
  ∃ st', joinRoom caller roomCode now0 sid now1 st = (JoinOk room sid, st')
         ∧ rooms st' !! roomCode = Some room.
Proof.
  intros Hroom Hlive Hmem.
  assert (Hswept : rooms (cleanupExpiredRooms now0 st) !! roomCode = Some room)
    by by apply rooms_cleanup.
  unfold joinRoom, joinRoom_enter. rewrite Hswept.
  rewrite (isRoomValid_cleanup _ _ _ _ Hswept). cbn [negb].
  unfold joinRoom_resume.
  pose proof (rooms_createOrGetUser sid caller now1 (cleanupExpiredRooms now0 st)) as Hrs.
  destruct (createOrGetUser sid caller now1 (cleanupExpiredRooms now0 st)) as [user st1].
  destruct (findUser_member _ _ Hmem) as [u ->].
  exists st1. split; [done|]. cbn [snd] in Hrs. by rewrite Hrs.
Qed.

Lemma joinRoom_member_idempotent_witness :
  ∃ st', joinRoom "bob" "AB12CD" 3 "SESSIONBBBBB" 3 st_joined
           = (JoinOk room_joined "SESSIONBBBBB", st')
         ∧ rooms st' !! "AB12CD" = Some room_joined.
Proof.
  apply (joinRoom_member_idempotent "bob" "AB12CD" 3 "SESSIONBBBBB" 3 st_joined room_joined).
  - vm_compute. reflexivity.
  - vm_compute. discriminate.
  - vm_compute. right. left.
Defined.

(** C5: on a stored room [endRoom] compares the session id with the creator
    and nothing else (it reads no clock, so a stale room is ended like a live
    one): for the creator it deletes the room and returns true, for any other
    session id it returns false and the store is left as it was. *)
Theorem endRoom_creator_only caller roomCode sid st room :
  rooms st !! roomCode = Some room →
  (creator room = sid →
     endRoom caller roomCode sid st = (true, deleteRoom roomCode st)
     ∧ getRoom roomCode (endRoom caller roomCode sid st).2 = None)
  ∧ (creator room ≠ sid →
     endRoom caller roomCode sid st = (false, st))
  ∧ ((endRoom caller roomCode sid st).1 = true ↔ creator room = sid)
  ∧ (getRoom roomCode (endRoom caller roomCode sid st).2 = None ↔ creator room = sid).
Proof.
  intros Hroom. unfold endRoom, getRoom. rewrite Hroom.
  case_bool_decide as Hc; cbn [fst snd deleteRoom setRooms rooms];
    rewrite ?lookup_delete_eq, ?Hroom.
  - repeat split; try done.
  - repeat split; try done; intros; congruence.
Qed.

Lemma endRoom_creator_only_witness :
  (creator room_joined = "SESSIONBBBBB" →
     endRoom "bob" "AB12CD" "SESSIONBBBBB" st_joined = (true, deleteRoom "AB12CD" st_joined)
     ∧ getRoom "AB12CD" (endRoom "bob" "AB12CD" "SESSIONBBBBB" st_joined).2 = None)
  ∧ (creator room_joined ≠ "SESSIONBBBBB" →
     endRoom "bob" "AB12CD" "SESSIONBBBBB" st_joined = (false, st_joined))
  ∧ ((endRoom "bob" "AB12CD" "SESSIONBBBBB" st_joined).1 = true
       ↔ creator room_joined = "SESSIONBBBBB")
  ∧ (getRoom "AB12CD" (endRoom "bob" "AB12CD" "SESSIONBBBBB" st_joined).2 = None
       ↔ creator room_joined = "SESSIONBBBBB").
Proof.
  apply (endRoom_creator_only "bob" "AB12CD" "SESSIONBBBBB" st_joined room_joined).
  vm_compute. reflexivity.
Defined.

(** C6: [leaveRoom] returns false exactly when no room is stored under the
    code.  On a stored room it returns true whether or not the session id is
    a member; the participants that remain are those with another session
    id; when none remains the room is deleted and [getRoom] finds nothing,
    otherwise the room stays with the remaining participants. *)
Theorem leaveRoom_result caller roomCode sid now st :
  ((leaveRoom caller roomCode sid now st).1 = false ↔ rooms st !! roomCode = None)
  ∧ ∀ room, rooms st !! roomCode = Some room →
      (leaveRoom caller roomCode sid now st).1 = true
      ∧ ((∀ u, u ∈ participants room → sessionId u = sid) →
           getRoom roomCode (leaveRoom caller roomCode sid now st).2 = None)
      ∧ ((∃ u, u ∈ participants room ∧ sessionId u ≠ sid) →
           ∃ room', getRoom roomCode (leaveRoom caller roomCode sid now st).2 = Some room'
                    ∧ (sid ∉ sessionId <$> participants room')
                    ∧ (∀ u, u ∈ participants room' ↔
                            u ∈ participants room ∧ sessionId u ≠ sid)
                    ∧ participants room' `sublist_of` participants room).
Proof.
  unfold leaveRoom, getRoom. destruct (rooms st !! roomCode) as [room|] eqn:Hroom.
  - set (ps := filter (λ u, sessionId u ≠ sid) (participants room)).
    split.
    { destruct (length ps =? 0)%nat; split; discriminate. }
    intros ? [= <-]. split; [by destruct (length ps =? 0)%nat|].
    destruct (Nat.eqb_spec (length ps) 0) as [Hlen | Hlen];
      cbn [snd deleteRoom putRoom setRooms rooms].
    + apply nil_length_inv in Hlen. split.
      * intros _. apply lookup_delete_eq.
      * intros (u & Hin & Hne). exfalso.
        assert (u ∈ ps) as Hu by (apply list_elem_of_filter; done).
        rewrite Hlen in Hu. by apply elem_of_nil in Hu.
    + split.
      * intros Hall. exfalso. apply Hlen. destruct ps as [|u ps'] eqn:Hps; [done|].
        assert (u ∈ filter (λ u, sessionId u ≠ sid) (participants room)) as Hu
          by (fold ps; rewrite Hps; left).
        apply list_elem_of_filter in Hu as [Hne Hin]. by apply Hall in Hin.
      * intros _. eexists. split; [apply lookup_insert_eq|]. cbn [participants].
        split; [|split].
        -- intros (u & -> & Hu)%list_elem_of_fmap.
           by apply list_elem_of_filter in Hu as [Hne _].
        -- intros u. unfold ps. rewrite list_elem_of_filter. tauto.
        -- apply sublist_filter.
  - split; [done|]. intros ? [=].
Qed.

Lemma leaveRoom_result_witness :
  (leaveRoom "bob" "AB12CD" "SESSIONBBBBB" 3 st_joined).1 = true
  ∧ ∃ room', getRoom "AB12CD" (leaveRoom "bob" "AB12CD" "SESSIONBBBBB" 3 st_joined).2
               = Some room'
             ∧ ("SESSIONBBBBB" ∉ sessionId <$> participants room').
Proof.
  destruct (leaveRoom_result "bob" "AB12CD" "SESSIONBBBBB" 3 st_joined) as [_ H].
  destruct (H room_joined) as (Hret & _ & Hstay); [vm_compute; reflexivity|].
  split; [exact Hret|].
  destruct Hstay as (room' & Hget & Hnot & _).
  - exists user1. split; [left | vm_compute; discriminate].
  - exists room'. split; [exact Hget | exact Hnot].
Defined.

(** C9: [sendMessage], [leaveRoom] and [endRoom] never look at the caller:
    with the same arguments on the same state, two callers get the same
    answer and leave the same state. *)
Theorem caller_ignored caller1 caller2 roomCode sid text now st :
  sendMessage caller1 roomCode sid text now st = sendMessage caller2 roomCode sid text now st
  ∧ leaveRoom caller1 roomCode sid now st = leaveRoom caller2 roomCode sid now st
  ∧ endRoom caller1 roomCode sid st = endRoom caller2 roomCode sid st.
Proof. repeat split. Qed.

(** So a caller other than the one recorded for a session acts as that
    session once it knows the session id. *)
Example mallory_sends_as_alice :
  principal user1 = "alice"
  ∧ ∃ m st', sendMessage "mallory" "AB12CD" "SESSIONAAAAA" "gotcha" 3 st_joined = (SendOk m, st')
             ∧ sender m = "SESSIONAAAAA" ∧ senderName m = displayName user1.
Proof. split; [done|]. eexists _, _. vm_compute. done. Qed.

(** C10: a [leaveRoom] with a session id that is not a member of a stored
    room that has participants returns true and stores the room with the
    same participants, messages, code, creator and creation time, but with
    [lastActivity] set to the time of the call, so that the room passes
    [isRoomValid] for another [SESSION_TIMEOUT]. *)
Theorem leaveRoom_non_member_bumps_activity caller roomCode sid now st room :
  rooms st !! roomCode = Some room →
  sid ∉ sessionId <$> participants room →
  participants room ≠ [] →
  ∃ room',
    leaveRoom caller roomCode sid now st = (true, putRoom roomCode room' st)
    ∧ participants room' = participants room
    ∧ messages room' = messages room
    ∧ code room' = code room
    ∧ creator room' = creator room
    ∧ createdAt room' = createdAt room
    ∧ lastActivity room' = now
    ∧ ∀ now', now' - now ≤ SESSION_TIMEOUT →
        isRoomValid now' roomCode (putRoom roomCode room' st) = true.
Proof.
  intros Hroom Hnot Hne. unfold leaveRoom. rewrite Hroom.
  rewrite (filter_non_member _ _ Hnot).
  destruct (Nat.eqb_spec (length (participants room)) 0) as [Hlen | _].
  { by apply nil_length_inv in Hlen. }
  eexists. split; [reflexivity|]. cbn [participants messages code creator createdAt lastActivity].
  repeat split. intros now' Hnow'. unfold isRoomValid, putRoom, setRooms. cbn [rooms].
  rewrite lookup_insert_eq. cbn [lastActivity]. by apply Z.leb_le.
Qed.

Lemma leaveRoom_non_member_bumps_activity_witness :
  ∃ room',
    leaveRoom "eve" "AB12CD" "SESSIONEEEEE" (minutes 20) st_joined
      = (true, putRoom "AB12CD" room' st_joined)
    ∧ participants room' = participants room_joined
    ∧ messages room' = messages room_joined
    ∧ code room' = code room_joined
    ∧ creator room' = creator room_joined
    ∧ createdAt room' = createdAt room_joined
    ∧ lastActivity room' = minutes 20
    ∧ ∀ now', now' - minutes 20 ≤ SESSION_TIMEOUT →
        isRoomValid now' "AB12CD" (putRoom "AB12CD" room' st_joined) = true.
Proof.
  apply (leaveRoom_non_member_bumps_activity "eve" "AB12CD" "SESSIONEEEEE" (minutes 20)
           st_joined room_joined).
  - vm_compute. reflexivity.
  - vm_compute. intros H. repeat (apply elem_of_cons in H as [H | H]; [discriminate|]).
    by apply elem_of_nil in H.
  - discriminate.
Defined.

End CallFacts.

(** ** Index sampling and the alphabet *)

Section SamplingFacts.
Import CodeGenerator.
Local Open Scope N_scope.

(** C7, as stated, fails for [n] above [2 ^ 255]: the bit width is kept in a
    [Nat8], the 256th increment traps, and [sampleIndex] computes no width
    and returns no index. *)
Lemma sampleIndex_traps_on_wide_n :
  0 < 2 ^ 255 + 1
  ∧ bitWidth (2 ^ 255 + 1 - 1) = Some Trap
  ∧ sampleIndex [] (2 ^ 255 + 1) = Some Trap.
Proof. vm_compute. done. Qed.

(** C7, amended: for every [n] with [0 < n ≤ 2 ^ 255], [sampleIndex] computes
    the least [p] with [n ≤ 2 ^ p], returns without trapping, and every index
    it returns is below [n]; with the 36 characters of the alphabet every
    returned index locates a character, so [charAt] does not reach its
    [assert false], and generating a room code or a session id never
    traps. *)
Theorem sampleIndex_below_n n :
  0 < n → n ≤ 2 ^ 255 →
  (∃ p, bitWidth (n - 1) = Some (Ret p) ∧ n ≤ 2 ^ p ∧ ∀ q, n ≤ 2 ^ q → p ≤ q)
  ∧ (∀ f, ∃ r f', sampleIndex f n = Some (Ret (r, f')) ∧ ∀ k, r = Some k → k < n)
  ∧ size alphabet = 36
  ∧ (∀ f k f', sampleIndex f (size alphabet) = Some (Ret (Some k, f')) →
       k < 36 ∧ ∃ c, charAt alphabet k = Ret c)
  ∧ (∀ blobs, (∃ r, generateRoomCode blobs = Some (Ret r))
              ∧ (∃ r, generateSessionId blobs = Some (Ret r))).
Proof.
  intros Hpos Hfit.
  assert (Hwidth : bitWidth (n - 1) = Some (Ret (N.size (n - 1)))).
  { rewrite bitWidth_size.
    destruct (N.ltb_spec 255 (N.size (n - 1))) as [Hbig | _]; [|done].
    assert (N.size (n - 1) ≤ 255) by (apply size_least; lia). lia. }
  split; [|split; [|split; [done | split]]].
  - exists (N.size (n - 1)). split; [done|]. split.
    + assert (n - 1 < 2 ^ N.size (n - 1)) by (by apply size_least). lia.
    + intros q Hq. apply size_least. lia.
  - intros f.
    destruct (sampleIndex_rec_returns n _ Hpos Hwidth (S (length f)) f)
      as (r & f' & Hs & Hr & _); [lia|].
    by exists r, f'.
  - intros f k f' Hs.
    destruct (sampleIndex_rec_returns (size alphabet) 6 eq_refl bitWidth_alphabet
                (S (length f)) f) as (r & f'' & Hs' & Hr & _); [lia|].
    unfold sampleIndex in Hs. rewrite Hs in Hs'. injection Hs' as <- <-.
    assert (k < 36) as Hk by (by apply Hr).
    split; [done|]. apply charAt_from_found; [lia | done].
  - intros blobs. unfold generateRoomCode, generateSessionId, generate.
    destruct blobs as [|b blobs]; [by split; eexists|].
    split; apply generate_loop_returns; lia.
Qed.

Lemma sampleIndex_below_n_witness :
  (∃ p, bitWidth (36 - 1) = Some (Ret p) ∧ 36 ≤ 2 ^ p ∧ ∀ q, 36 ≤ 2 ^ q → p ≤ q)
  ∧ (∀ f, ∃ r f', sampleIndex f 36 = Some (Ret (r, f')) ∧ ∀ k, r = Some k → k < 36)
  ∧ size alphabet = 36
  ∧ (∀ f k f', sampleIndex f (size alphabet) = Some (Ret (Some k, f')) →
       k < 36 ∧ ∃ c, charAt alphabet k = Ret c)
  ∧ (∀ blobs, (∃ r, generateRoomCode blobs = Some (Ret r))
              ∧ (∃ r, generateSessionId blobs = Some (Ret r))).
Proof.
  apply (sampleIndex_below_n 36).
  - reflexivity.
  - vm_compute. discriminate.
Defined.

(** Outside the alphabet [charAt] does trap, so the bound on the index is
    what keeps the assertion from failing. *)
Example charAt_alphabet_36 : charAt alphabet 36 = Trap.
Proof. reflexivity. Qed.

End SamplingFacts.

(** ** Room code retries *)

Section CreateFacts.
Local Open Scope Z_scope.

(** The retry loop from [attempts = a]: it stops at the first generated code
    among those numbered [a] to 9 that is free, and otherwise at the code
    numbered 10 with [attempts = 10], whatever that code is. *)
Lemma createRoom_loop_from codes rs : ∀ fuel a,
  (10 ≤ a + fuel)%nat →
  (∀ k, (a ≤ k < 10)%nat →
        (∀ j, (a ≤ j < k)%nat → rs !! codes j ≠ None) → rs !! codes k = None →
        createRoom_loop fuel codes rs (codes a) a = (codes k, k))
  ∧ ((a ≤ 10)%nat → (∀ j, (a ≤ j < 10)%nat → rs !! codes j ≠ None) →
        createRoom_loop fuel codes rs (codes a) a = (codes 10%nat, 10%nat)).
Proof.
  induction fuel as [|fuel IH]; intros a Hfuel.
  - split.
    + intros k Hk. lia.
    + intros Ha _. assert (a = 10%nat) as -> by lia.
      cbn [createRoom_loop]. unfold createRoom_test. simpl (10 <? 10)%nat.
      by rewrite andb_false_r.
  - destruct (IH (S a)) as [IHfree IHfull]; [lia|]. split.
    + intros k Hk Hbusy Hfree. cbn [createRoom_loop]. unfold createRoom_test.
      destruct (decide (k = a)) as [-> | Hne].
      * rewrite bool_decide_eq_false_2 by (by intros ?). done.
      * rewrite bool_decide_eq_true_2 by (apply Hbusy; lia).
        destruct (Nat.ltb_spec a 10); [|lia]. cbn [andb].
        apply IHfree; [lia | | done]. intros j Hj. apply Hbusy. lia.
    + intros Ha Hbusy. cbn [createRoom_loop]. unfold createRoom_test.
      destruct (Nat.ltb_spec a 10) as [Hlt | Hge].
      * rewrite bool_decide_eq_true_2 by (apply Hbusy; lia). cbn [andb].
        apply IHfull; [lia|]. intros j Hj. apply Hbusy. lia.
      * assert (a = 10%nat) as -> by lia. by rewrite andb_false_r.
Qed.

(** If one of the first ten generated codes (the initial one and nine
    retries) is free, [createRoom] stores the room under the first free
    one. *)
Lemma createRoom_first_free caller now0 sid now1 codes now2 st k :
  let st1 := (createOrGetUser sid caller now1 (cleanupExpiredRooms now0 st)).2 in
  (k < 10)%nat →
  (∀ j, (j < k)%nat → rooms st1 !! codes j ≠ None) →
  rooms st1 !! codes k = None →
  ∃ room st', createRoom caller now0 sid now1 codes now2 st
                = (CreateOk (codes k) room sid, st')
              ∧ rooms st' !! codes k = Some room.
Proof.
  intros st1 Hk Hbusy Hfree. unfold createRoom. subst st1.
  destruct (createOrGetUser sid caller now1 (cleanupExpiredRooms now0 st)) as [user st1].
  cbn [snd] in *.
  destruct (createRoom_loop_from codes (rooms st1) 10 0 ltac:(lia)) as [Hloop _].
  rewrite (Hloop k) by (try done; try lia; intros j Hj; apply Hbusy; lia).
  unfold createRoom_finish. destruct (Nat.leb_spec 10 k); [lia|].
  eexists _, _. split; [reflexivity|]. apply lookup_insert_eq.
Qed.

(** If the first ten generated codes are all taken, [createRoom] fails; the
    code produced by the tenth retry is not looked at. *)
Lemma createRoom_ten_taken caller now0 sid now1 codes now2 st :
  let st1 := (createOrGetUser sid caller now1 (cleanupExpiredRooms now0 st)).2 in
  (∀ j, (j < 10)%nat → rooms st1 !! codes j ≠ None) →
  createRoom caller now0 sid now1 codes now2 st
    = (CreateErr "Failed to generate unique room code", st1).
Proof.
  intros st1 Hbusy. unfold createRoom. subst st1.
  destruct (createOrGetUser sid caller now1 (cleanupExpiredRooms now0 st)) as [user st1].
  cbn [snd] in *.
  destruct (createRoom_loop_from codes (rooms st1) 10 0 ltac:(lia)) as [_ Hloop].
  rewrite Hloop by (try lia; intros j Hj; apply Hbusy; lia).
  reflexivity.
Qed.

(** C1 at the failing input: the first ten generated codes hit the stored
    room AB12CD, the tenth retry yields ZZ99ZZ, under which nothing is
    stored; [createRoom] answers with the error and stores no room under
    ZZ99ZZ. *)
Theorem createRoom_discards_tenth_retry :
  let st1 := (createOrGetUser "SESSIONCCCCC" "carol" 3 (cleanupExpiredRooms 3 st_joined)).2 in
  rooms st1 !! "AB12CD" = Some room_joined
  ∧ (∀ k, (k < 10)%nat → colliding k = "AB12CD")
  ∧ colliding 10 = "ZZ99ZZ"
  ∧ rooms st1 !! "ZZ99ZZ" = None
  ∧ (createRoom "carol" 3 "SESSIONCCCCC" 3 colliding 3 st_joined).1
      = CreateErr "Failed to generate unique room code"
  ∧ rooms (createRoom "carol" 3 "SESSIONCCCCC" 3 colliding 3 st_joined).2 !! "ZZ99ZZ" = None.
Proof.
  cbv zeta. split; [vm_compute; reflexivity|]. split.
  { intros k Hk. unfold colliding. by destruct (Nat.ltb_spec k 10); [|lia]. }
  split; [reflexivity|]. split; [vm_compute; reflexivity|].
  split; vm_compute; reflexivity.
Qed.

End CreateFacts.

(** ** Invariants of the actor *)

Section InvariantFacts.
Local Open Scope N_scope.

Lemma room_ok_mono cnt cnt' room : cnt ≤ cnt' → room_ok cnt room → room_ok cnt' room.
Proof.
  intros Hle (Hnd & Hsorted & Hbelow). repeat split; [done | done |].
  eapply Forall_impl; [exact Hbelow|]. intros i Hi. simpl in Hi. lia.
Qed.

Lemma pending_ok_mono cnt cnt' p : cnt ≤ cnt' → pending_ok cnt p → pending_ok cnt' p.
Proof. intros Hle. destruct p; simpl; [done | done | by apply room_ok_mono]. Qed.

Lemma store_ok_initial : store_ok initial.
Proof. split; intros ? ? H; cbn in H; by rewrite lookup_empty in H. Qed.

Lemma store_ok_cleanup now st : store_ok st → store_ok (cleanupExpiredRooms now st).
Proof.
  intros [Hrooms Hsessions]. split.
  - intros roomCode room [H _]%rooms_cleanup. by apply Hrooms in H.
  - intros sid user H%sessions_cleanup. by apply Hsessions.
Qed.

Lemma store_ok_createOrGetUser sid p now st :
  store_ok st →
  store_ok (createOrGetUser sid p now st).2
  ∧ sessionId (createOrGetUser sid p now st).1 = sid
  ∧ messageIdCounter (createOrGetUser sid p now st).2 = messageIdCounter st.
Proof.
  intros [Hrooms Hsessions]. unfold createOrGetUser.
  destruct (sessions st !! sid) as [user|] eqn:Hs; cbn [fst snd].
  - split; [by split|]. split; [by apply Hsessions | done].
  - split; [|by split]. split; [done|]. cbn [sessions].
    intros sid' user'. destruct (decide (sid = sid')) as [<- | Hne].
    + rewrite lookup_insert_eq. by intros [= <-].
    + rewrite lookup_insert_ne by done. apply Hsessions.
Qed.

Lemma store_ok_putRoom roomCode room st :
  store_ok st → room_ok (messageIdCounter st) room → store_ok (putRoom roomCode room st).
Proof.
  intros [Hrooms Hsessions] Hroom. split; [|done].
  intros roomCode' room'. cbn [putRoom setRooms rooms messageIdCounter].
  destruct (decide (roomCode = roomCode')) as [<- | Hne].
  - rewrite lookup_insert_eq. by intros [= <-].
  - rewrite lookup_insert_ne by done. apply Hrooms.
Qed.

Lemma store_ok_deleteRoom roomCode st : store_ok st → store_ok (deleteRoom roomCode st).
Proof.
  intros [Hrooms Hsessions]. split; [|done].
  intros roomCode' room'. cbn [deleteRoom setRooms rooms messageIdCounter].
  destruct (decide (roomCode = roomCode')) as [<- | Hne].
  - by rewrite lookup_delete_eq.
  - rewrite lookup_delete_ne by done. apply Hrooms.
Qed.

Lemma createRoom_finish_ok sid user roomCode attempts now st r st' :
  store_ok st → sessionId user = sid →
  createRoom_finish sid user roomCode attempts now st = (r, st') →
  store_ok st' ∧ messageIdCounter st' = messageIdCounter st
  ∧ distinctParticipants (RCreate r).
Proof.
  intros Hok Hsid. unfold createRoom_finish.
  assert (Hnew : ∀ cnt, room_ok cnt (newRoom roomCode sid user now)).
  { intros cnt. repeat split; cbn; [apply NoDup_singleton | constructor | constructor]. }
  destruct (10 <=? attempts)%nat; intros [= <- <-].
  - split; [done|]. split; [done|]. intros ? [=].
  - split; [by apply store_ok_putRoom|]. split; [done|].
    intros room [= <-]. apply Hnew with (cnt := 0).
Qed.

Lemma joinRoom_enter_ok roomCode now st :
  store_ok st →
  match joinRoom_enter roomCode now st with
  | JoinAwait room st' =>
      store_ok st' ∧ messageIdCounter st' = messageIdCounter st
      ∧ room_ok (messageIdCounter st) room
  | JoinDone r st' =>
      store_ok st' ∧ messageIdCounter st' = messageIdCounter st
      ∧ distinctParticipants (RJoin r)
  end.
Proof.
  intros Hok%(store_ok_cleanup now). unfold joinRoom_enter.
  destruct (rooms (cleanupExpiredRooms now st) !! roomCode) as [room|] eqn:Hroom.
  - destruct (negb _).
    + split; [by apply store_ok_deleteRoom|]. split; [done|]. intros ? [=].
    + split; [done|]. split; [done|]. by apply Hok in Hroom.
  - split; [done|]. split; [done|]. intros ? [=].
Qed.

Lemma joinRoom_resume_ok caller roomCode room sid now st r st' :
  store_ok st → room_ok (messageIdCounter st) room →
  joinRoom_resume caller roomCode room sid now st = (r, st') →
  store_ok st' ∧ messageIdCounter st' = messageIdCounter st
  ∧ distinctParticipants (RJoin r).
Proof.
  intros Hok Hroom. unfold joinRoom_resume.
  destruct (store_ok_createOrGetUser sid caller now st Hok) as (Hok1 & Hsid & Hcnt).
  destruct (createOrGetUser sid caller now st) as [user st1]. cbn [fst snd] in *.
  destruct (findUser sid (participants room)) as [u|] eqn:Hfind; intros [= <- <-].
  - split; [done|]. split; [done|]. intros ? [= <-]. apply Hroom.
  - apply findUser_None in Hfind. destruct Hroom as (Hnd & Hsorted & Hbelow).
    assert (Hnd' : NoDup (sessionId <$> participants room ++ [user])).
    { rewrite fmap_app. apply NoDup_app. split; [done|]. split; [|apply NoDup_singleton].
      intros x Hx Hx'. cbn in Hx'. apply list_elem_of_singleton in Hx'. congruence. }
    split; [|split; [done|]].
    + apply store_ok_putRoom; [done|]. rewrite Hcnt. by repeat split.
    + by intros ? [= <-].
Qed.

Lemma sendMessage_ok caller roomCode sid text now st r st' :
  store_ok st →
  sendMessage caller roomCode sid text now st = (r, st') →
  store_ok st'
  ∧ messageIdCounter st ≤ messageIdCounter st'
  ∧ ∀ m, r = SendOk m →
      id m = messageIdCounter st ∧ messageIdCounter st' = messageIdCounter st + 1.
Proof.
  intros Hok%(store_ok_cleanup now). unfold sendMessage.
  change (messageIdCounter st) with (messageIdCounter (cleanupExpiredRooms now st)).
  generalize dependent (cleanupExpiredRooms now st). clear st. intros st Hok.
  destruct (rooms st !! roomCode) as [room|] eqn:Hroom.
  - destruct (negb _).
    { intros [= <- <-]. split; [by apply store_ok_deleteRoom|]. by split. }
    destruct (findUser sid (participants room)) as [user|]; intros [= <- <-].
    + split; [|split; [cbn; lia | by intros m [= <-]]].
      destruct Hok as [Hrooms Hsessions].
      destruct (Hrooms _ _ Hroom) as (Hnd & Hsorted & Hbelow).
      apply store_ok_putRoom.
      * split; [|done]. intros roomCode' room' H'.
        cbn [rooms messageIdCounter] in *.
        eapply room_ok_mono; [|by apply Hrooms in H']. lia.
      * cbn [messageIdCounter]. split; [done|]. cbn [messages]. rewrite fmap_app. split.
        -- apply StronglySorted_app_2; [|done|].
           ++ intros x1 x2 Hx1 Hx2. cbn in Hx2. apply list_elem_of_singleton in Hx2 as ->.
              by eapply Forall_forall in Hbelow.
           ++ repeat constructor.
        -- apply Forall_app. split.
           ++ eapply Forall_impl; [exact Hbelow|]. intros i Hi. simpl in Hi. lia.
           ++ apply Forall_singleton. cbn. lia.
    + split; [done|]. by split.
  - intros [= <- <-]. split; [done|]. by split.
Qed.

Lemma leaveRoom_ok caller roomCode sid now st b st' :
  store_ok st → leaveRoom caller roomCode sid now st = (b, st') →
  store_ok st' ∧ messageIdCounter st' = messageIdCounter st.
Proof.
  intros Hok. unfold leaveRoom.
  destruct (rooms st !! roomCode) as [room|] eqn:Hroom; [|by intros [= <- <-]].
  destruct (_ =? _)%nat; intros [= <- <-].
  - split; [by apply store_ok_deleteRoom | done].
  - split; [|done]. apply store_ok_putRoom; [done|].
    destruct Hok as [Hrooms _]. destruct (Hrooms _ _ Hroom) as (Hnd & Hsorted & Hbelow).
    split; [|done]. cbn [participants].
    eapply sublist_NoDup; [exact Hnd|]. apply fmap_sublist, sublist_filter.
Qed.

Lemma endRoom_ok caller roomCode sid st b st' :
  store_ok st → endRoom caller roomCode sid st = (b, st') →
  store_ok st' ∧ messageIdCounter st' = messageIdCounter st.
Proof.
  intros Hok. unfold endRoom.
  destruct (rooms st !! roomCode) as [room|]; [|by intros [= <- <-]].
  case_bool_decide; intros [= <- <-]; [|done].
  split; [by apply store_ok_deleteRoom | done].
Qed.

Lemma Forall_pending_mono cnt cnt' (ps : list Pending) :
  cnt ≤ cnt' → Forall (pending_ok cnt) ps → Forall (pending_ok cnt') ps.
Proof.
  intros Hle H. eapply Forall_impl; [exact H|]. intros p. by apply pending_ok_mono.
Qed.

(** Splitting the pool around the call that resumes. *)
Lemma Forall_pending_split cnt (l1 l2 : list Pending) p :
  Forall (pending_ok cnt) (l1 ++ p :: l2) →
  pending_ok cnt p ∧ Forall (pending_ok cnt) (l1 ++ l2)
  ∧ ∀ p', pending_ok cnt p' → Forall (pending_ok cnt) (l1 ++ p' :: l2).
Proof.
  rewrite Forall_app, Forall_cons. intros (H1 & Hp & H2).
  split; [done|]. split; [by apply Forall_app|].
  intros p' Hp'. apply Forall_app. split; [done|]. by apply Forall_cons.
Qed.

Local Abbreviation counter a := (messageIdCounter (store a)).

(** Every transition of the actor keeps it well formed, never lowers the
    message counter, and a successful [sendMessage] returns the value the
    counter had and advances it by one. *)
Lemma step_ok a o b :
  actor_ok a → step a o b →
  actor_ok b
  ∧ counter a ≤ counter b
  ∧ (∀ m, o = Some (RSend (SendOk m)) →
       id m = counter a ∧ counter b = counter a + 1)
  ∧ (∀ r, o = Some r → distinctParticipants r).
Proof.
  intros [Hst Hpend] Hstep.
  destruct Hstep as
    [ a caller now
    | a l1 l2 caller sid now user st' Hin Hcall
    | a l1 l2 sid user attempts roomCode Hin Htest
    | a l1 l2 sid user attempts roomCode now r st' Hin Htest Hcall
    | a caller roomCode now room st' Hcall
    | a caller roomCode now r st' Hcall
    | a l1 l2 caller roomCode room sid now r st' Hin Hcall
    | a caller roomCode sid text now r st' Hcall
    | a caller roomCode sid now b st' Hcall
    | a caller roomCode sid b st' Hcall
    | a now ];
    unfold actor_ok; cbn [store inflight]; try (rewrite Hin in Hpend;
      apply Forall_pending_split in Hpend as (Hp & Hrest & Hput)).
  - split; [|split; [done | split; [by intros ? [=] | by intros ? [=]]]].
    split; [by apply store_ok_cleanup|]. by apply Forall_cons.
  - destruct (store_ok_createOrGetUser sid caller now (store a) Hst) as (Hst' & Hsid & Hcnt).
    rewrite Hcall in Hst', Hsid, Hcnt. cbn [fst snd] in *.
    split; [|split; [lia | split; [by intros ? [=] | by intros ? [=]]]].
    split; [done|]. rewrite Hcnt. by apply Hput.
  - split; [|split; [done | split; [by intros ? [=] | by intros ? [=]]]].
    split; [done|]. by apply Hput.
  - destruct (createRoom_finish_ok _ _ _ _ _ _ _ _ Hst Hp Hcall) as (Hst' & Hcnt & Hresp).
    split; [|split; [lia | split; [by intros ? [=] | by intros ? [= <-]]]].
    split; [done|]. by rewrite Hcnt.
  - pose proof (joinRoom_enter_ok roomCode now (store a) Hst) as Henter.
    rewrite Hcall in Henter. destruct Henter as (Hst' & Hcnt & Hroom).
    split; [|split; [lia | split; [by intros ? [=] | by intros ? [=]]]].
    split; [done|]. rewrite Hcnt. by apply Forall_cons.
  - pose proof (joinRoom_enter_ok roomCode now (store a) Hst) as Henter.
    rewrite Hcall in Henter. destruct Henter as (Hst' & Hcnt & Hresp).
    split; [|split; [lia | split; [by intros ? [=] | by intros ? [= <-]]]].
    split; [done|]. by rewrite Hcnt.
  - destruct (joinRoom_resume_ok _ _ _ _ _ _ _ _ Hst Hp Hcall) as (Hst' & Hcnt & Hresp).
    split; [|split; [lia | split; [by intros ? [=] | by intros ? [= <-]]]].
    split; [done|]. by rewrite Hcnt.
  - destruct (sendMessage_ok _ _ _ _ _ _ _ _ Hst Hcall) as (Hst' & Hcnt & Hid).
    split; [|split; [done | split; [|by intros ? [= <-] ? [=]]]].
    + split; [done|]. by eapply Forall_pending_mono.
    + intros m [= ->]. by apply Hid.
  - destruct (leaveRoom_ok _ _ _ _ _ _ _ Hst Hcall) as (Hst' & Hcnt).
    split; [|split; [lia | split; [by intros ? [=] | by intros ? [= <-] ? [=]]]].
    split; [done|]. by rewrite Hcnt.
  - destruct (endRoom_ok _ _ _ _ _ _ Hst Hcall) as (Hst' & Hcnt).
    split; [|split; [lia | split; [by intros ? [=] | by intros ? [= <-] ? [=]]]].
    split; [done|]. by rewrite Hcnt.
  - split; [|split; [done | split; [by intros ? [=] | by intros ? [= <-] ? [=]]]].
    split; [by apply store_ok_cleanup | done].
Qed.

Lemma actor_ok_actor0 : actor_ok actor0.
Proof. split; [apply store_ok_initial | constructor]. Qed.

(** Along every execution from the empty actor the actor stays well formed,
    and the ids handed out by [sendMessage] so far increase strictly and lie
    below the counter. *)
Lemma run_ok tr a : run actor0 tr a → actor_ok a ∧ trace_ok (counter a) tr.
Proof.
  remember actor0 as a0 eqn:Ha0. induction 1 as [a | a tr b o c Hrun IH Hstep].
  - subst a. split; [apply actor_ok_actor0|]. repeat split; constructor.
  - destruct (IH Ha0) as (Hb & Hsorted & Hbelow & Hrooms).
    destruct (step_ok _ _ _ Hb Hstep) as (Hc & Hcnt & Hid & Hresp).
    split; [done|]. unfold trace_ok, sentIds. rewrite omap_app. split; [|split].
    + apply StronglySorted_app_2; [|done|].
      * intros x1 x2 Hx1 Hx2.
        destruct o as [[| |[m|]| | |]|]; cbn in Hx2; try by apply elem_of_nil in Hx2.
        apply list_elem_of_singleton in Hx2 as ->.
        destruct (Hid m eq_refl) as [-> _]. by eapply Forall_forall in Hbelow.
      * destruct o as [[| |[m|]| | |]|]; cbn; repeat constructor.
    + apply Forall_app. split.
      * eapply Forall_impl; [exact Hbelow|]. intros i Hi. simpl in Hi. lia.
      * destruct o as [[| |[m|]| | |]|]; cbn; try constructor; [|constructor].
        destruct (Hid m eq_refl) as [-> ->]. lia.
    + apply Forall_app. split; [done|].
      destruct o as [r|]; cbn; [|constructor]. apply Forall_singleton. by apply Hresp.
Qed.

End InvariantFacts.

(** ** Calls that run to completion are executions of the actor *)

Section AtomicCalls.

Lemma run_app a tr b o c : run a tr b → step b (Some o) c → run a (tr ++ [o]) c.
Proof. intros Hrun Hstep. exact (run_step a tr b (Some o) c Hrun Hstep). Qed.

Lemma run_silent a tr b c : run a tr b → step b None c → run a tr c.
Proof.
  intros Hrun Hstep. pose proof (run_step a tr b None c Hrun Hstep) as H.
  cbn in H. by rewrite app_nil_r in H.
Qed.

Lemma run_sendMessage a tr b caller roomCode sid text now :
  run a tr b →
  run a (tr ++ [RSend (sendMessage caller roomCode sid text now (store b)).1])
    {| store := (sendMessage caller roomCode sid text now (store b)).2;
       inflight := inflight b |}.
Proof.
  intros Hrun. eapply run_app; [exact Hrun|].
  eapply step_send. apply surjective_pairing.
Qed.

Lemma run_joinRoom a tr b caller roomCode now0 sid now1 :
  run a tr b →
  run a (tr ++ [RJoin (joinRoom caller roomCode now0 sid now1 (store b)).1])
    {| store := (joinRoom caller roomCode now0 sid now1 (store b)).2;
       inflight := inflight b |}.
Proof.
  intros Hrun. unfold joinRoom.
  destruct (joinRoom_enter roomCode now0 (store b)) as [room st' | r st'] eqn:Henter.
  - eapply run_app.
    + eapply run_silent; [exact Hrun|]. eapply step_join_await. exact Henter.
    + eapply (step_join_resume _ [] (inflight b)); [reflexivity|]. apply surjective_pairing.
  - eapply run_app; [exact Hrun|]. by eapply step_join_done.
Qed.

(** The retries of [createRoom], one transition per generated code. *)
Lemma run_createRoom_loop a0 tr st sid user pool codes : ∀ fuel roomCode attempts,
  (10 ≤ attempts + fuel)%nat →
  run a0 tr {| store := st; inflight := CreateCode sid user attempts :: pool |} →
  let '(roomCode', attempts') := createRoom_loop fuel codes (rooms st) roomCode attempts in
  run a0 tr {| store := st; inflight := CreateCode sid user attempts' :: pool |}
  ∧ createRoom_test (rooms st) roomCode' attempts' = false.
Proof.
  induction fuel as [|fuel IH]; intros roomCode attempts Hfuel Hrun; cbn [createRoom_loop];
    destruct (createRoom_test (rooms st) roomCode attempts) eqn:Htest; try done.
  - unfold createRoom_test in Htest. apply andb_true_iff in Htest as [_ Hlt].
    apply Nat.ltb_lt in Hlt. lia.
  - apply IH; [lia|]. eapply run_silent; [exact Hrun|].
    by apply (step_create_retry
                {| store := st; inflight := CreateCode sid user attempts :: pool |}
                [] pool sid user attempts roomCode).
Qed.

Lemma run_createRoom a tr b caller now0 sid now1 codes now2 :
  run a tr b →
  run a (tr ++ [RCreate (createRoom caller now0 sid now1 codes now2 (store b)).1])
    {| store := (createRoom caller now0 sid now1 codes now2 (store b)).2;
       inflight := inflight b |}.
Proof.
  intros Hrun. unfold createRoom.
  destruct (createOrGetUser sid caller now1 (cleanupExpiredRooms now0 (store b)))
    as [user st1] eqn:Huser.
  assert (Hcode : run a tr {| store := st1; inflight := CreateCode sid user 0 :: inflight b |}).
  { eapply run_silent.
    - eapply run_silent; [exact Hrun|]. apply (step_create_enter b caller now0).
    - by eapply (step_create_session _ [] (inflight b)). }
  pose proof (run_createRoom_loop a tr st1 sid user (inflight b) codes 10 (codes 0%nat) 0
                ltac:(lia) Hcode) as Hloop.
  destruct (createRoom_loop 10 codes (rooms st1) (codes 0%nat) 0) as [roomCode attempts].
  destruct Hloop as [Hrun' Htest].
  eapply run_app; [exact Hrun'|].
  eapply (step_create_finish _ [] (inflight b)); [reflexivity | exact Htest |].
  apply surjective_pairing.
Qed.

Lemma sample_run : run actor0 sample_trace sample_actor.
Proof.
  pose proof (run_createRoom actor0 [] actor0 "alice" 0 "SESSIONAAAAA" 0 (λ _, "AB12CD") 0
                (run_nil actor0)) as H1.
  pose proof (run_sendMessage _ _ _ "alice" "AB12CD" "SESSIONAAAAA" "hi" 1%Z H1) as H2.
  pose proof (run_joinRoom _ _ _ "bob" "AB12CD" 2 "SESSIONBBBBB" 2 H2) as H3.
  exact (run_sendMessage _ _ _ "bob" "AB12CD" "SESSIONBBBBB" "hello" 3%Z H3).
Qed.

Lemma room_replied_stored : rooms (store sample_actor) !! "AB12CD" = Some room_replied.
Proof. vm_compute. reflexivity. Qed.

End AtomicCalls.

(** ** Message ids and membership along executions *)

Section ExecutionFacts.
Local Open Scope N_scope.

Lemma StronglySorted_lookup {A} (R : relation A) (l : list A) : ∀ i j x y,
  StronglySorted R l → l !! i = Some x → l !! j = Some y → (i < j)%nat → R x y.
Proof.
  induction l as [|z l IH]; intros i j x y Hsorted Hi Hj Hlt; [done|].
  apply StronglySorted_cons in Hsorted as [Hz Hsorted].
  destruct j as [|j]; [lia|]. cbn in Hj. destruct i as [|i]; cbn in Hi.
  - injection Hi as ->. eapply Forall_forall in Hz; [exact Hz|].
    by eapply list_elem_of_lookup_2.
  - eapply (IH i j); [done.. | lia].
Qed.

Lemma StronglySorted_lt_NoDup (l : list N) : StronglySorted N.lt l → NoDup l.
Proof.
  induction l as [|x l IH]; [constructor|].
  intros [Hx Hsorted]%StronglySorted_cons. constructor; [|by apply IH].
  intros Hin. eapply Forall_forall in Hx; [|exact Hin]. lia.
Qed.

(** C3: along every execution of the actor from its initial state, the ids
    of the messages returned by the successful [sendMessage] calls, taken in
    the order of the calls and whatever rooms they went to, increase strictly
    (so none is used twice); and in every stored room the id of a message
    increases strictly with its position. *)
Theorem message_ids_strictly_increasing tr a :
  run actor0 tr a →
  StronglySorted N.lt (sentIds tr)
  ∧ NoDup (sentIds tr)
  ∧ ∀ roomCode room i j mi mj,
      rooms (store a) !! roomCode = Some room →
      messages room !! i = Some mi → messages room !! j = Some mj →
      (i < j)%nat → id mi < id mj.
Proof.
  intros Hrun. destruct (run_ok tr a Hrun) as ([[Hrooms _] _] & Hsorted & _ & _).
  split; [done|]. split; [by apply StronglySorted_lt_NoDup|].
  intros roomCode room i j mi mj Hroom Hi Hj Hlt.
  destruct (Hrooms _ _ Hroom) as (_ & Hids & _).
  eapply (StronglySorted_lookup N.lt (id <$> messages room) i j); [done | | | done].
  - by rewrite list_lookup_fmap, Hi.
  - by rewrite list_lookup_fmap, Hj.
Qed.

Lemma message_ids_strictly_increasing_witness :
  sentIds sample_trace = [0; 1]
  ∧ StronglySorted N.lt (sentIds sample_trace)
  ∧ NoDup (sentIds sample_trace)
  ∧ id hi < id hello.
Proof.
  destruct (message_ids_strictly_increasing sample_trace sample_actor sample_run)
    as (Hsorted & Hnodup & Hroom).
  split; [reflexivity|]. split; [exact Hsorted|]. split; [exact Hnodup|].
  apply (Hroom "AB12CD" room_replied 0%nat 1%nat hi hello);
    [vm_compute; reflexivity | reflexivity | reflexivity | lia].
Defined.

(** C8: in every state the actor reaches from its initial state, whatever
    calls built it and however they interleaved, no stored room has two
    participants with the same session id; the same holds after any further
    transition (a createRoom, joinRoom, sendMessage, leaveRoom, endRoom or
    cleanup step) and for every room handed back by createRoom or
    joinRoom. *)
Theorem participants_distinct tr a :
  run actor0 tr a →
  (∀ roomCode room, rooms (store a) !! roomCode = Some room →
     NoDup (sessionId <$> participants room))
  ∧ (∀ o b roomCode room, step a o b → rooms (store b) !! roomCode = Some room →
     NoDup (sessionId <$> participants room))
  ∧ (∀ r room, r ∈ tr → responseRoom r = Some room →
     NoDup (sessionId <$> participants room)).
Proof.
  intros Hrun. destruct (run_ok tr a Hrun) as (Ha & _ & _ & Hresp).
  split; [|split].
  - intros roomCode room Hroom. destruct Ha as [[Hrooms _] _].
    by destruct (Hrooms _ _ Hroom).
  - intros o b roomCode room Hstep Hroom.
    destruct (step_ok a o b Ha Hstep) as ([[Hrooms _] _] & _).
    by destruct (Hrooms _ _ Hroom).
  - intros r room Hr. eapply Forall_forall in Hresp; [|exact Hr]. apply Hresp.
Qed.

Lemma participants_distinct_witness :
  NoDup (sessionId <$> participants room_replied)
  ∧ ∀ r room, r ∈ sample_trace → responseRoom r = Some room →
      NoDup (sessionId <$> participants room).
Proof.
  destruct (participants_distinct sample_trace sample_actor sample_run)
    as (Hstored & _ & Hresp).
  split; [|exact Hresp].
  apply (Hstored "AB12CD" room_replied). vm_compute. reflexivity.
Defined.

End ExecutionFacts.

(** ** The sweep and the validity test *)

Section SweepFacts.
Local Open Scope Z_scope.

Lemma sweep_absorbs {V} (stale stale' : V → bool) (m : gmap string V) :
  (∀ v, stale' v = true → stale v = true) →
  sweep stale' (sweep stale m) = sweep stale m.
Proof.
  intros Himp. apply map_eq. intros k. rewrite (lookup_sweep stale').
  destruct (sweep stale m !! k) as [v|] eqn:Hk; [|done].
  apply lookup_sweep_Some in Hk as [_ Hfresh].
  destruct (stale' v) eqn:Hs; [|done]. apply Himp in Hs. congruence.
Qed.

(** X1: [cleanupExpiredRooms] deletes exactly the rooms whose last activity
    and the session records whose creation lie more than [SESSION_TIMEOUT]
    before [now]; every other entry is kept as it is and both counters are
    untouched. *)
Theorem cleanupExpiredRooms_exact now st :
  (∀ roomCode room,
     rooms (cleanupExpiredRooms now st) !! roomCode = Some room ↔
     rooms st !! roomCode = Some room ∧ now - lastActivity room ≤ SESSION_TIMEOUT)
  ∧ (∀ sid user,
     sessions (cleanupExpiredRooms now st) !! sid = Some user ↔
     sessions st !! sid = Some user ∧ now - joinedAt user ≤ SESSION_TIMEOUT)
  ∧ messageIdCounter (cleanupExpiredRooms now st) = messageIdCounter st
  ∧ userCounter (cleanupExpiredRooms now st) = userCounter st.
Proof.
  split; [|split; [|done]].
  - intros roomCode room. apply rooms_cleanup.
  - intros sid user. cbn [cleanupExpiredRooms sessions]. rewrite lookup_sweep_Some.
    by rewrite Z.gtb_ltb, Z.ltb_ge.
Qed.

(** X2: the validity test and the sweep draw the same line: a code passes
    [isRoomValid] at [now] exactly when a room is still stored under it
    after [cleanupExpiredRooms] at [now].  A room idle for exactly
    [SESSION_TIMEOUT] is on the live side. *)
Theorem isRoomValid_iff_survives_sweep now roomCode st :
  (isRoomValid now roomCode st = true ↔
     is_Some (rooms (cleanupExpiredRooms now st) !! roomCode))
  ∧ (isRoomValid now roomCode st = true ↔
     ∃ room, rooms st !! roomCode = Some room
             ∧ now ≤ lastActivity room + SESSION_TIMEOUT).
Proof.
  assert (Hvalid : isRoomValid now roomCode st = true ↔
     ∃ room, rooms st !! roomCode = Some room
             ∧ now ≤ lastActivity room + SESSION_TIMEOUT).
  { unfold isRoomValid. destruct (rooms st !! roomCode) as [room|].
    - rewrite Z.leb_le. split.
      + intros H. exists room. split; [done | lia].
      + intros (r & [= <-] & H). lia.
    - split; [done | by intros (r & [=] & _)]. }
  split; [|exact Hvalid]. rewrite Hvalid. split.
  - intros (room & Hroom & Hlive). exists room. apply rooms_cleanup. split; [done | lia].
  - intros [room [Hroom Hlive]%rooms_cleanup]. exists room. split; [done | lia].
Qed.

Lemma isRoomValid_iff_survives_sweep_witness :
  isRoomValid (minutes 20 + 2) "AB12CD" st_joined = true
  ∧ is_Some (rooms (cleanupExpiredRooms (minutes 20 + 2) st_joined) !! "AB12CD").
Proof.
  destruct (isRoomValid_iff_survives_sweep (minutes 20 + 2) "AB12CD" st_joined)
    as [Hsweep Hvalid].
  assert (Hv : isRoomValid (minutes 20 + 2) "AB12CD" st_joined = true).
  { apply Hvalid. exists room_joined. split; [vm_compute; reflexivity | vm_compute; discriminate]. }
  split; [exact Hv | by apply Hsweep].
Defined.

(** X3: a sweep absorbs any sweep at the same or an earlier instant that
    follows it; in particular sweeping twice at the same instant is the same
    as sweeping once. *)
Theorem cleanupExpiredRooms_absorbs now now' st :
  now' ≤ now →
  cleanupExpiredRooms now' (cleanupExpiredRooms now st) = cleanupExpiredRooms now st.
Proof.
  intros Hle. unfold cleanupExpiredRooms at 1 3. cbn [rooms sessions messageIdCounter userCounter].
  f_equal.
  - unfold cleanupExpiredRooms. cbn [rooms]. apply sweep_absorbs.
    intros room. rewrite !Z.gtb_ltb, !Z.ltb_lt. lia.
  - unfold cleanupExpiredRooms. cbn [sessions]. apply sweep_absorbs.
    intros user. rewrite !Z.gtb_ltb, !Z.ltb_lt. lia.
Qed.

Lemma cleanupExpiredRooms_absorbs_witness :
  cleanupExpiredRooms (minutes 21) (cleanupExpiredRooms (minutes 30) st_joined)
    = cleanupExpiredRooms (minutes 30) st_joined.
Proof.
  apply (cleanupExpiredRooms_absorbs (minutes 30) (minutes 21) st_joined).
  vm_compute. discriminate.
Defined.

End SweepFacts.

(** ** Session registry *)

Section RegistryFacts.
Local Open Scope N_scope.

Lemma createOrGetUser_first_writer_stored sid p now st :
  sessions (createOrGetUser sid p now st).2 !! sid = Some (createOrGetUser sid p now st).1.
Proof.
  unfold createOrGetUser. destruct (sessions st !! sid) as [user|] eqn:Hs; cbn [fst snd];
    [done | cbn [sessions]; apply lookup_insert_eq].
Qed.

(** X4: the registry binds a session id to the first caller that used it:
    after [createOrGetUser] the record is stored under the id, and resolving
    the same id again, for whatever caller and at whatever time, returns
    that same record and changes nothing. *)
Theorem createOrGetUser_first_writer_wins sid p1 t1 p2 t2 st :
  sessions (createOrGetUser sid p1 t1 st).2 !! sid = Some (createOrGetUser sid p1 t1 st).1
  ∧ createOrGetUser sid p2 t2 (createOrGetUser sid p1 t1 st).2
      = createOrGetUser sid p1 t1 st.
Proof.
  destruct (createOrGetUser sid p1 t1 st) as [u st1] eqn:H1. cbn [fst snd].
  unfold createOrGetUser in H1.
  destruct (sessions st !! sid) as [user|] eqn:Hs; injection H1 as <- <-.
  - split; [done|]. unfold createOrGetUser. by rewrite Hs.
  - split; [cbn [sessions]; apply lookup_insert_eq|].
    unfold createOrGetUser. cbn [sessions]. by rewrite lookup_insert_eq.
Qed.

Lemma registry_ok_initial : registry_ok initial.
Proof.
  split; [intros sid user H | intros sid1 sid2 u1 u2 H];
    cbn in H; by rewrite lookup_empty in H.
Qed.

Lemma registry_ok_cleanup now st : registry_ok st → registry_ok (cleanupExpiredRooms now st).
Proof.
  intros [Hnum Huniq]. split.
  - intros sid user H%sessions_cleanup. by apply Hnum in H.
  - intros sid1 sid2 u1 u2 H1%sessions_cleanup H2%sessions_cleanup. by apply Huniq.
Qed.

Lemma registry_ok_createOrGetUser sid p now st :
  registry_ok st → registry_ok (createOrGetUser sid p now st).2.
Proof.
  intros [Hnum Huniq]. unfold createOrGetUser.
  destruct (sessions st !! sid) as [user|] eqn:Hs; cbn [snd]; [by split|].
  set (new := {| sessionId := sid; principal := p;
                 displayName := "User " +:+ pretty (userCounter st + 1); joinedAt := now |}).
  assert (Hfresh : ∀ sid' u', sessions st !! sid' = Some u' → displayName u' ≠ displayName new).
  { intros sid' u' H' Heq. destruct (Hnum _ _ H') as (k & Hk & Hname).
    rewrite Hname in Heq. cbn in Heq. injection Heq as Heq.
    change (pretty k = pretty (userCounter st + 1)) in Heq.
    apply (inj pretty) in Heq. lia. }
  split; cbn [sessions userCounter].
  - intros sid' user'. destruct (decide (sid = sid')) as [<- | Hne].
    + rewrite lookup_insert_eq. intros [= <-]. exists (userCounter st + 1). split; [lia | done].
    + rewrite lookup_insert_ne by done. intros H'.
      destruct (Hnum _ _ H') as (k & Hk & Hname). exists k. split; [lia | done].
  - intros sid1 sid2 u1 u2.
    destruct (decide (sid = sid1)) as [<- | Hne1], (decide (sid = sid2)) as [<- | Hne2];
      rewrite ?lookup_insert_eq, ?lookup_insert_ne by done; try done.
    + intros [= <-] H2 Heq. symmetry in Heq. by apply Hfresh in H2.
    + intros H1 [= <-] Heq. by apply Hfresh in H1.
    + apply Huniq.
Qed.

(** The calls touch the registry only through the sweep and
    [createOrGetUser]. *)
Lemma registry_ok_frame st st' :
  sessions st' = sessions st → userCounter st' = userCounter st →
  registry_ok st → registry_ok st'.
Proof. unfold registry_ok. intros -> ->. done. Qed.

Lemma registry_ok_step a o b : registry_ok (store a) → step a o b → registry_ok (store b).
Proof.
  intros Hok Hstep.
  destruct Hstep as
    [ a caller now
    | a l1 l2 caller sid now user st' Hin Hcall
    | a l1 l2 sid user attempts roomCode Hin Htest
    | a l1 l2 sid user attempts roomCode now r st' Hin Htest Hcall
    | a caller roomCode now room st' Hcall
    | a caller roomCode now r st' Hcall
    | a l1 l2 caller roomCode room sid now r st' Hin Hcall
    | a caller roomCode sid text now r st' Hcall
    | a caller roomCode sid now b st' Hcall
    | a caller roomCode sid b st' Hcall
    | a now ]; cbn [store].
  - by apply registry_ok_cleanup.
  - pose proof (registry_ok_createOrGetUser sid caller now _ Hok) as H.
    by rewrite Hcall in H.
  - done.
  - unfold createRoom_finish in Hcall. destruct (10 <=? attempts)%nat; by injection Hcall as _ <-.
  - apply (registry_ok_cleanup now) in Hok. unfold joinRoom_enter in Hcall.
    destruct (rooms _ !! roomCode); [|done]. destruct (negb _); [done|].
    by injection Hcall as _ <-.
  - apply (registry_ok_cleanup now) in Hok. unfold joinRoom_enter in Hcall.
    destruct (rooms _ !! roomCode); [|by injection Hcall as _ <-].
    destruct (negb _); [|done]. by injection Hcall as _ <-.
  - pose proof (registry_ok_createOrGetUser sid caller now _ Hok) as H.
    unfold joinRoom_resume in Hcall.
    destruct (createOrGetUser sid caller now (store a)) as [user st1]. cbn [snd] in H.
    destruct (findUser sid (participants room)); by injection Hcall as _ <-.
  - apply (registry_ok_cleanup now) in Hok. unfold sendMessage in Hcall.
    destruct (rooms _ !! roomCode); [|by injection Hcall as _ <-].
    destruct (negb _); [by injection Hcall as _ <-|].
    destruct (findUser sid _); by injection Hcall as _ <-.
  - unfold leaveRoom in Hcall. destruct (rooms _ !! roomCode); [|by injection Hcall as _ <-].
    destruct (_ =? _)%nat; by injection Hcall as _ <-.
  - unfold endRoom in Hcall. destruct (rooms _ !! roomCode); [|by injection Hcall as _ <-].
    case_bool_decide; by injection Hcall as _ <-.
  - by apply registry_ok_cleanup.
Qed.

Lemma registry_ok_run tr a : run actor0 tr a → registry_ok (store a).
Proof.
  remember actor0 as a0 eqn:Ha0. induction 1 as [a | a tr b o c Hrun IH Hstep].
  - subst a. apply registry_ok_initial.
  - eapply registry_ok_step; [by apply IH | done].
Qed.

(** X5: in every state the actor reaches, each record of the session
    registry is stored under its own session id and is named "User k" for a
    [k] between 1 and the user counter, and two different session ids never
    carry the same display name, sweeps and interleavings included. *)
Theorem display_names_unique tr a :
  run actor0 tr a →
  (∀ sid user, sessions (store a) !! sid = Some user →
     sessionId user = sid
     ∧ ∃ k, 1 ≤ k ≤ userCounter (store a) ∧ displayName user = "User " +:+ pretty k)
  ∧ (∀ sid1 sid2 u1 u2,
     sessions (store a) !! sid1 = Some u1 → sessions (store a) !! sid2 = Some u2 →
     displayName u1 = displayName u2 → sid1 = sid2).
Proof.
  intros Hrun. destruct (registry_ok_run tr a Hrun) as [Hnum Huniq].
  destruct (run_ok tr a Hrun) as [[[_ Hkeys] _] _].
  split; [|exact Huniq]. intros sid user H. split; [by apply Hkeys | by eapply Hnum].
Qed.

Lemma display_names_unique_witness :
  sessionId user2 = "SESSIONBBBBB"
  ∧ ∃ k, 1 ≤ k ≤ userCounter (store sample_actor) ∧ displayName user2 = "User " +:+ pretty k.
Proof.
  destruct (display_names_unique sample_trace sample_actor sample_run) as [H _].
  apply (H "SESSIONBBBBB" user2). vm_compute. reflexivity.
Defined.

(** X6: in every state the actor reaches, [getAllSessions] lists each
    session id once, pairs it with the record carrying that id, and no
    display name occurs twice in the list. *)
Theorem getAllSessions_distinct tr a :
  run actor0 tr a →
  NoDup (getAllSessions (store a)).*1
  ∧ NoDup (displayName <$> (getAllSessions (store a)).*2)
  ∧ ∀ sid user, (sid, user) ∈ getAllSessions (store a) ↔
                sessions (store a) !! sid = Some user ∧ sessionId user = sid.
Proof.
  intros Hrun. destruct (registry_ok_run tr a Hrun) as [_ Huniq].
  destruct (run_ok tr a Hrun) as [[[_ Hkeys] _] _].
  unfold getAllSessions. split; [apply NoDup_fst_map_to_list|]. split.
  - rewrite <- list_fmap_compose. apply NoDup_fmap_2_strong; [|apply NoDup_map_to_list].
    intros [sid1 u1] [sid2 u2] H1%elem_of_map_to_list H2%elem_of_map_to_list Heq.
    cbn in Heq. assert (sid1 = sid2) as -> by (by eapply Huniq). congruence.
  - intros sid user. rewrite elem_of_map_to_list. split; [|by intros [? _]].
    intros H. split; [done | by apply Hkeys].
Qed.

Lemma getAllSessions_distinct_witness :
  NoDup (getAllSessions (store sample_actor)).*1
  ∧ NoDup (displayName <$> (getAllSessions (store sample_actor)).*2)
  ∧ ∀ sid user, (sid, user) ∈ getAllSessions (store sample_actor) ↔
                sessions (store sample_actor) !! sid = Some user ∧ sessionId user = sid.
Proof. apply (getAllSessions_distinct sample_trace sample_actor). apply sample_run. Defined.

End RegistryFacts.

(** ** Generated codes *)

Section GeneratedCodeFacts.
Import CodeGenerator.
Local Open Scope N_scope.



Lemma charAt_from_In t : ∀ i idx c,
  charAt_from t i idx = Ret c → c ∈ String.list_ascii_of_string t.
Proof.
  induction t as [|c' t IH]; intros i idx c; cbn [charAt_from String.list_ascii_of_string]; [done|].
  destruct (i =? idx).
  - intros [= <-]. left.
  - intros H. right. by eapply IH.
Qed.

Lemma length_snoc s c : String.length (s +:+ String c EmptyString) = S (String.length s).
Proof.
  induction s as [|c' s IH]; [done|].
  change (String c' s +:+ String c EmptyString) with (String c' (s +:+ String c EmptyString)).
  cbn [String.length]. by rewrite IH.
Qed.

Lemma list_ascii_snoc s c :
  String.list_ascii_of_string (s +:+ String c EmptyString) = String.list_ascii_of_string s ++ [c].
Proof.
  induction s as [|c' s IH]; [done|].
  change (String c' s +:+ String c EmptyString) with (String c' (s +:+ String c EmptyString)).
  cbn [String.list_ascii_of_string]. by rewrite IH.
Qed.

Lemma generate_loop_shape len : ∀ fuel blobs f acc i code,
  generate_loop fuel len blobs f acc i = Some (Ret (Some code)) →
  String.length code = (String.length acc + (len - i))%nat
  ∧ (Forall (λ c, c ∈ String.list_ascii_of_string alphabet) (String.list_ascii_of_string acc) →
     Forall (λ c, c ∈ String.list_ascii_of_string alphabet) (String.list_ascii_of_string code)).
Proof.
  induction fuel as [|fuel IH]; intros blobs f acc i code; cbn [generate_loop];
    destruct (Nat.ltb_spec i len) as [Hi | Hi]; try done.
  - intros [= <-]. split; [lia | done].
  - destruct (sampleIndex f (size alphabet)) as [[[[j|] f']|]|]; try done.
    + destruct (charAt alphabet j) as [c|] eqn:Hc; [|done].
      intros H. apply IH in H as [Hlen Hchars]. split.
      * rewrite Hlen, length_snoc. lia.
      * intros Hacc. apply Hchars. rewrite list_ascii_snoc. apply Forall_app.
        split; [done|]. apply Forall_singleton. by eapply charAt_from_In.
    + destruct blobs as [|b blobs]; [done|]. apply IH.
  - intros [= <-]. split; [lia | done].
Qed.

(** X8: a code that [generateRoomCode] or [generateSessionId] returns has
    exactly the requested number of characters (6 and 12), each of them one
    of the 36 characters of the alphabet, whatever the entropy was. *)
Theorem generated_code_shape len blobs code :
  generate len blobs = Some (Ret (Some code)) →
  String.length code = len
  ∧ Forall (λ c, c ∈ String.list_ascii_of_string alphabet) (String.list_ascii_of_string code).
Proof.
  unfold generate. destruct blobs as [|b blobs]; [done|].
  intros [Hlen Hchars]%generate_loop_shape. split.
  - rewrite Hlen. cbn. lia.
  - apply Hchars. constructor.
Qed.

Lemma generated_code_shape_witness :
  String.length "ABC9BF" = 6%nat
  ∧ Forall (λ c, c ∈ String.list_ascii_of_string alphabet) (String.list_ascii_of_string "ABC9BF").
Proof.
  apply (generated_code_shape 6 sample_blobs "ABC9BF").
  vm_compute. reflexivity.
Defined.

End GeneratedCodeFacts.

(** ** sendMessage and joinRoom, case by case *)

Section SendJoinFacts.
Local Open Scope Z_scope.

(** X9: a [sendMessage] that fails leaves the state as the sweep at the
    start of the call left it: no id is consumed and no room is touched.  It
    fails with "Room not found" when no room is stored under the code after
    the sweep (a stale room included) and with "You are not a member of this
    room" when the room is there without the session id; the answer "Room
    has expired" is never given, the sweep having run at the same instant as
    the validity test. *)
Theorem sendMessage_failure_only_sweeps caller roomCode sid text now st e st' :
  sendMessage caller roomCode sid text now st = (SendErr e, st') →
  st' = cleanupExpiredRooms now st
  ∧ ((e = "Room not found" ∧ rooms (cleanupExpiredRooms now st) !! roomCode = None)
     ∨ (e = "You are not a member of this room"
        ∧ ∃ room, rooms (cleanupExpiredRooms now st) !! roomCode = Some room
                  ∧ sid ∉ sessionId <$> participants room)).
Proof.
  unfold sendMessage.
  destruct (rooms (cleanupExpiredRooms now st) !! roomCode) as [room|] eqn:Hroom.
  - rewrite (isRoomValid_cleanup _ _ _ _ Hroom). cbn [negb].
    destruct (findUser sid (participants room)) as [user|] eqn:Hfind; [done|].
    intros [= <- <-]. split; [done|]. right. split; [done|].
    exists room. split; [done|]. by apply findUser_None.
  - intros [= <- <-]. split; [done|]. by left.
Qed.

Lemma sendMessage_failure_only_sweeps_witness :
  ∃ room, rooms (cleanupExpiredRooms 3 st_joined) !! "AB12CD" = Some room
          ∧ "SESSIONEEEEE" ∉ sessionId <$> participants room.
Proof.
  destruct (sendMessage_failure_only_sweeps "eve" "AB12CD" "SESSIONEEEEE" "hey" 3 st_joined
              "You are not a member of this room" (cleanupExpiredRooms 3 st_joined))
    as [_ [[He _] | [_ H]]].
  - vm_compute. reflexivity.
  - discriminate He.
  - exact H.
Defined.

(** X10: a [sendMessage] by a session id that is a participant of a live
    stored room succeeds: the message gets the current value of the counter
    as id, the session id as sender, the display name of a participant with
    that session id, the given text and the time of the call; the counter
    advances by one; the room is stored with the message appended and
    [lastActivity] set to the time of the call, so that [getMessages] returns
    the old messages followed by the new one; every other code reads as
    after the sweep. *)
Theorem sendMessage_appends caller roomCode sid text now st room :
  rooms st !! roomCode = Some room →
  now - lastActivity room ≤ SESSION_TIMEOUT →
  sid ∈ sessionId <$> participants room →
  ∃ m user st',
    sendMessage caller roomCode sid text now st = (SendOk m, st')
    ∧ id m = messageIdCounter st ∧ sender m = sid ∧ content m = text ∧ timestamp m = now
    ∧ user ∈ participants room ∧ sessionId user = sid ∧ senderName m = displayName user
    ∧ messageIdCounter st' = (messageIdCounter st + 1)%N
    ∧ getRoom roomCode st'
        = Some {| code := code room; creator := creator room;
                  participants := participants room;
                  messages := messages room ++ [m];
                  createdAt := createdAt room; lastActivity := now |}
    ∧ getMessages roomCode st' = messages room ++ [m]
    ∧ ∀ roomCode', roomCode' ≠ roomCode →
        rooms st' !! roomCode' = rooms (cleanupExpiredRooms now st) !! roomCode'.
Proof.
  intros Hroom Hlive Hmem.
  assert (Hswept : rooms (cleanupExpiredRooms now st) !! roomCode = Some room)
    by by apply rooms_cleanup.
  destruct (findUser_member _ _ Hmem) as [user Hfind].
  destruct (findUser_Some _ _ _ Hfind) as [Hin Hsid].
  unfold sendMessage. rewrite Hswept, (isRoomValid_cleanup _ _ _ _ Hswept), Hfind. cbn [negb].
  eexists _, user, _. split; [reflexivity|].
  cbn [id sender content timestamp senderName messageIdCounter cleanupExpiredRooms].
  do 8 (split; [done|]).
  unfold getRoom, getMessages, putRoom, setRooms. cbn [rooms].
  rewrite lookup_insert_eq. split; [done|]. split; [done|].
  intros roomCode' Hne. by rewrite lookup_insert_ne.
Qed.

Lemma sendMessage_appends_witness :
  ∃ m user st',
    sendMessage "bob" "AB12CD" "SESSIONBBBBB" "hello" 3 st_joined = (SendOk m, st')
    ∧ id m = messageIdCounter st_joined ∧ sender m = "SESSIONBBBBB"
    ∧ content m = "hello" ∧ timestamp m = 3
    ∧ user ∈ participants room_joined ∧ sessionId user = "SESSIONBBBBB"
    ∧ senderName m = displayName user
    ∧ messageIdCounter st' = (messageIdCounter st_joined + 1)%N
    ∧ getRoom "AB12CD" st'
        = Some {| code := code room_joined; creator := creator room_joined;
                  participants := participants room_joined;
                  messages := messages room_joined ++ [m];
                  createdAt := createdAt room_joined; lastActivity := 3 |}
    ∧ getMessages "AB12CD" st' = messages room_joined ++ [m]
    ∧ ∀ roomCode', roomCode' ≠ "AB12CD" →
        rooms st' !! roomCode' = rooms (cleanupExpiredRooms 3 st_joined) !! roomCode'.
Proof.
  apply (sendMessage_appends "bob" "AB12CD" "SESSIONBBBBB" "hello" 3 st_joined room_joined).
  - vm_compute. reflexivity.
  - vm_compute. discriminate.
  - vm_compute. right. left.
Defined.

(** X11: a [joinRoom] fails only with "Room not found", exactly when no room
    is stored under the code after the sweep at the start of the call (a
    stale room included); the state is then as the sweep left it, no session
    record is created, and the answer "Room has expired" is never given. *)
Theorem joinRoom_failure_only_sweeps caller roomCode now0 sid now1 st :
  (∀ e st', joinRoom caller roomCode now0 sid now1 st = (JoinErr e, st') →
     e = "Room not found" ∧ st' = cleanupExpiredRooms now0 st
     ∧ rooms (cleanupExpiredRooms now0 st) !! roomCode = None)
  ∧ (rooms (cleanupExpiredRooms now0 st) !! roomCode = None →
     joinRoom caller roomCode now0 sid now1 st
       = (JoinErr "Room not found", cleanupExpiredRooms now0 st)).
Proof.
  unfold joinRoom, joinRoom_enter.
  destruct (rooms (cleanupExpiredRooms now0 st) !! roomCode) as [room|] eqn:Hroom.
  - rewrite (isRoomValid_cleanup _ _ _ _ Hroom). cbn [negb]. split; [|done].
    intros e st'. unfold joinRoom_resume.
    destruct (createOrGetUser sid caller now1 _) as [user st1].
    by destruct (findUser sid (participants room)).
  - split; [|done]. by intros e st' [= <- <-].
Qed.

Lemma joinRoom_failure_only_sweeps_witness :
  joinRoom "bob" "AB12CD" (minutes 30) "SESSIONBBBBB" (minutes 30) st_joined
    = (JoinErr "Room not found", cleanupExpiredRooms (minutes 30) st_joined).
Proof.
  destruct (joinRoom_failure_only_sweeps "bob" "AB12CD" (minutes 30) "SESSIONBBBBB"
              (minutes 30) st_joined) as [_ H].
  apply H. vm_compute. reflexivity.
Defined.

(** X12: a [joinRoom] on a live stored room whose participants do not have
    the generated session id appends the user resolved for that id at the
    end of the participants, keeps the messages, code, creator and creation
    time, sets [lastActivity] to the time after the await, and answers with
    the room it stored. *)
Theorem joinRoom_appends_member caller roomCode now0 sid now1 st room :
  rooms st !! roomCode = Some room →
  now0 - lastActivity room ≤ SESSION_TIMEOUT →
  sid ∉ sessionId <$> participants room →
  ∃ room' st',
    joinRoom caller roomCode now0 sid now1 st = (JoinOk room' sid, st')
    ∧ getRoom roomCode st' = Some room'
    ∧ participants room'
        = participants room
          ++ [(createOrGetUser sid caller now1 (cleanupExpiredRooms now0 st)).1]
    ∧ length (participants room') = S (length (participants room))
    ∧ messages room' = messages room ∧ code room' = code room
    ∧ creator room' = creator room ∧ createdAt room' = createdAt room
    ∧ lastActivity room' = now1.
Proof.
  intros Hroom Hlive Hnew.
  assert (Hswept : rooms (cleanupExpiredRooms now0 st) !! roomCode = Some room)
    by by apply rooms_cleanup.
  unfold joinRoom, joinRoom_enter. rewrite Hswept, (isRoomValid_cleanup _ _ _ _ Hswept).
  cbn [negb]. unfold joinRoom_resume.
  destruct (createOrGetUser sid caller now1 (cleanupExpiredRooms now0 st)) as [user st1].
  apply findUser_None in Hnew. rewrite Hnew.
  eexists _, _. split; [reflexivity|].
  unfold getRoom, putRoom, setRooms. cbn [rooms]. rewrite lookup_insert_eq.
  cbn [participants messages code creator createdAt lastActivity fst].
  rewrite length_app. cbn [length]. split; [done|]. split; [done|]. split; [lia|].
  by repeat split.
Qed.

Lemma joinRoom_appends_member_witness :
  ∃ room' st',
    joinRoom "bob" "AB12CD" 2 "SESSIONBBBBB" 2 st_hi = (JoinOk room' "SESSIONBBBBB", st')
    ∧ getRoom "AB12CD" st' = Some room'
    ∧ participants room'
        = participants room_hi
          ++ [(createOrGetUser "SESSIONBBBBB" "bob" 2 (cleanupExpiredRooms 2 st_hi)).1]
    ∧ length (participants room') = S (length (participants room_hi))
    ∧ messages room' = messages room_hi ∧ code room' = code room_hi
    ∧ creator room' = creator room_hi ∧ createdAt room' = createdAt room_hi
    ∧ lastActivity room' = 2.
Proof.
  apply (joinRoom_appends_member "bob" "AB12CD" 2 "SESSIONBBBBB" 2 st_hi room_hi).
  - vm_compute. reflexivity.
  - vm_compute. discriminate.
  - vm_compute. intros H. repeat (apply elem_of_cons in H as [H | H]; [discriminate|]).
    by apply elem_of_nil in H.
Defined.

End SendJoinFacts.

(** ** createRoom, case by case *)

Section CreateRoomFacts.
Local Open Scope Z_scope.

Lemma createRoom_loop_exit codes rs : ∀ fuel roomCode attempts,
  (10 ≤ attempts + fuel)%nat →
  createRoom_test rs (createRoom_loop fuel codes rs roomCode attempts).1
                     (createRoom_loop fuel codes rs roomCode attempts).2 = false.
Proof.
  induction fuel as [|fuel IH]; intros roomCode attempts Hfuel; cbn [createRoom_loop];
    destruct (createRoom_test rs roomCode attempts) eqn:Htest; try done.
  - unfold createRoom_test in Htest. apply andb_true_iff in Htest as [_ Hlt].
    apply Nat.ltb_lt in Hlt. lia.
  - apply IH. lia.
Qed.

Lemma createRoom_loop_exhausted codes rs : ∀ fuel attempts,
  (10 ≤ (createRoom_loop fuel codes rs (codes attempts) attempts).2)%nat →
  ∀ j, (attempts ≤ j < 10)%nat → rs !! codes j ≠ None.
Proof.
  induction fuel as [|fuel IH]; intros attempts; cbn [createRoom_loop];
    destruct (createRoom_test rs (codes attempts) attempts) eqn:Htest; cbn [snd];
    intros Hten j Hj; try lia.
  unfold createRoom_test in Htest. apply andb_true_iff in Htest as [Hbusy _].
  apply bool_decide_eq_true in Hbusy.
  destruct (decide (j = attempts)) as [-> | Hne]; [done|].
  apply (IH (S attempts)); [done | lia].
Qed.

(** X13: a [createRoom] that succeeds never replaces a stored room: the code
    it returns had no room after the sweep; the room it stores and returns
    has that code, the generated session id as creator, the user resolved
    for that id as only participant, no message, and the time of the last
    segment as creation and activity time; every other code reads as after
    the sweep and no message id is consumed. *)
Theorem createRoom_success_fresh caller now0 sid now1 codes now2 st roomCode room sid' st' :
  createRoom caller now0 sid now1 codes now2 st = (CreateOk roomCode room sid', st') →
  sid' = sid
  ∧ rooms (cleanupExpiredRooms now0 st) !! roomCode = None
  ∧ code room = roomCode ∧ creator room = sid
  ∧ participants room = [(createOrGetUser sid caller now1 (cleanupExpiredRooms now0 st)).1]
  ∧ messages room = [] ∧ createdAt room = now2 ∧ lastActivity room = now2
  ∧ getRoom roomCode st' = Some room
  ∧ (∀ roomCode', roomCode' ≠ roomCode →
       rooms st' !! roomCode' = rooms (cleanupExpiredRooms now0 st) !! roomCode')
  ∧ messageIdCounter st' = messageIdCounter st.
Proof.
  unfold createRoom.
  pose proof (rooms_createOrGetUser sid caller now1 (cleanupExpiredRooms now0 st)) as Hrs.
  pose proof (counter_createOrGetUser sid caller now1 (cleanupExpiredRooms now0 st)) as Hcnt.
  destruct (createOrGetUser sid caller now1 (cleanupExpiredRooms now0 st)) as [user st1].
  cbn [fst snd] in *.
  pose proof (createRoom_loop_exit codes (rooms st1) 10 (codes 0%nat) 0 ltac:(lia)) as Hexit.
  destruct (createRoom_loop 10 codes (rooms st1) (codes 0%nat) 0) as [rc attempts].
  cbn [fst snd] in Hexit. unfold createRoom_finish.
  destruct (Nat.leb_spec 10 attempts) as [|Hlt]; [done|].
  intros [= <- <- <- <-]. split; [done|].
  unfold createRoom_test in Hexit. apply andb_false_iff in Hexit as [Hfree | Hge].
  2: { apply Nat.ltb_ge in Hge. lia. }
  apply bool_decide_eq_false in Hfree. rewrite Hrs in Hfree.
  split; [by destruct (rooms (cleanupExpiredRooms now0 st) !! rc); [exfalso; apply Hfree|]|].
  cbn [newRoom code creator participants messages createdAt lastActivity].
  do 6 (split; [done|]).
  unfold getRoom, putRoom, setRooms. cbn [rooms messageIdCounter].
  rewrite lookup_insert_eq. split; [done|]. split; [|done].
  intros roomCode' Hne. rewrite lookup_insert_ne by done. by rewrite Hrs.
Qed.

Lemma createRoom_success_fresh_witness :
  rooms (cleanupExpiredRooms 3 st_joined) !! "ZZ99ZZ" = None
  ∧ getRoom "ZZ99ZZ" (createRoom "carol" 3 "SESSIONCCCCC" 3 (λ _, "ZZ99ZZ") 3 st_joined).2
      = Some (newRoom "ZZ99ZZ" "SESSIONCCCCC"
                (createOrGetUser "SESSIONCCCCC" "carol" 3 (cleanupExpiredRooms 3 st_joined)).1 3).
Proof.
  destruct (createRoom_success_fresh "carol" 3 "SESSIONCCCCC" 3 (λ _, "ZZ99ZZ") 3 st_joined
              "ZZ99ZZ"
              (newRoom "ZZ99ZZ" "SESSIONCCCCC"
                 (createOrGetUser "SESSIONCCCCC" "carol" 3 (cleanupExpiredRooms 3 st_joined)).1 3)
              "SESSIONCCCCC"
              (createRoom "carol" 3 "SESSIONCCCCC" 3 (λ _, "ZZ99ZZ") 3 st_joined).2)
    as (_ & Hfree & _ & _ & _ & _ & _ & _ & Hget & _).
  - vm_compute. reflexivity.
  - split; [exact Hfree | exact Hget].
Defined.

(** X14: [createRoom] fails only with "Failed to generate unique room code",
    and only when the first ten generated codes all have a room after the
    sweep.  A failed call stores no room, but the session record it
    resolved stays in the registry. *)
Theorem createRoom_failure_keeps_session caller now0 sid now1 codes now2 st e st' :
  createRoom caller now0 sid now1 codes now2 st = (CreateErr e, st') →
  e = "Failed to generate unique room code"
  ∧ (∀ k, (k < 10)%nat → rooms (cleanupExpiredRooms now0 st) !! codes k ≠ None)
  ∧ st' = (createOrGetUser sid caller now1 (cleanupExpiredRooms now0 st)).2
  ∧ rooms st' = rooms (cleanupExpiredRooms now0 st)
  ∧ sessions st' !! sid
      = Some (createOrGetUser sid caller now1 (cleanupExpiredRooms now0 st)).1.
Proof.
  unfold createRoom.
  pose proof (rooms_createOrGetUser sid caller now1 (cleanupExpiredRooms now0 st)) as Hrs.
  pose proof (createOrGetUser_first_writer_stored sid caller now1
                (cleanupExpiredRooms now0 st)) as Hstored.
  destruct (createOrGetUser sid caller now1 (cleanupExpiredRooms now0 st)) as [user st1].
  cbn [fst snd] in *.
  pose proof (createRoom_loop_exhausted codes (rooms st1) 10 0) as Hloop.
  destruct (createRoom_loop 10 codes (rooms st1) (codes 0%nat) 0) as [rc attempts].
  cbn [snd] in Hloop. unfold createRoom_finish.
  destruct (Nat.leb_spec 10 attempts) as [Hge|]; [|done].
  intros [= <- <-]. split; [done|]. split; [|done].
  intros k Hk. rewrite <- Hrs. apply Hloop; [done | lia].
Qed.

Lemma createRoom_failure_keeps_session_witness :
  (∀ k, (k < 10)%nat → rooms (cleanupExpiredRooms 3 st_joined) !! colliding k ≠ None)
  ∧ sessions (createRoom "carol" 3 "SESSIONCCCCC" 3 colliding 3 st_joined).2 !! "SESSIONCCCCC"
      = Some (createOrGetUser "SESSIONCCCCC" "carol" 3 (cleanupExpiredRooms 3 st_joined)).1.
Proof.
  destruct (createRoom_failure_keeps_session "carol" 3 "SESSIONCCCCC" 3 colliding 3 st_joined
              "Failed to generate unique room code"
              (createRoom "carol" 3 "SESSIONCCCCC" 3 colliding 3 st_joined).2)
    as (_ & Hbusy & _ & _ & Hsession).
  - vm_compute. reflexivity.
  - split; [exact Hbusy | exact Hsession].
Defined.

End CreateRoomFacts.

(** ** How the calls compose *)

Section ComposeFacts.
Local Open Scope Z_scope.



(** X16: [joinRoom] stores the room it read before its await.  When a
    [sendMessage] on the same code runs while the join is suspended, the
    message is stored and its id consumed, and the resuming join then puts
    back the room without that message: [getMessages] no longer returns it.
    The three segments in this order are an execution of the actor. *)
Theorem joinRoom_resume_drops_message caller c2 roomCode now0 sid now1 sid2 text now2
    st room st0 m st1 :
  joinRoom_enter roomCode now0 st = JoinAwait room st0 →
  sendMessage c2 roomCode sid2 text now1 st0 = (SendOk m, st1) →
  sid ∉ sessionId <$> participants room →
  getMessages roomCode st1 = messages room ++ [m]
  ∧ getMessages roomCode (joinRoom_resume caller roomCode room sid now2 st1).2 = messages room
  ∧ messageIdCounter (joinRoom_resume caller roomCode room sid now2 st1).2
      = (messageIdCounter st + 1)%N
  ∧ ∀ a0 tr pool,
      run a0 tr {| store := st; inflight := pool |} →
      run a0 (tr ++ [RSend (SendOk m); RJoin (joinRoom_resume caller roomCode room sid now2 st1).1])
        {| store := (joinRoom_resume caller roomCode room sid now2 st1).2; inflight := pool |}.
Proof.
  intros Henter Hsend Hnew.
  assert (Hst0 : st0 = cleanupExpiredRooms now0 st ∧ rooms st0 !! roomCode = Some room).
  { unfold joinRoom_enter in Henter.
    destruct (rooms (cleanupExpiredRooms now0 st) !! roomCode) as [r|] eqn:Hr; [|done].
    destruct (negb _); [done|]. by injection Henter as <- <-. }
  destruct Hst0 as [Hst0 Hroom0].
  assert (Hst1 : getMessages roomCode st1 = messages room ++ [m]
                 ∧ messageIdCounter st1 = (messageIdCounter st + 1)%N).
  { pose proof Hsend as Hsend'. unfold sendMessage in Hsend'.
    destruct (rooms (cleanupExpiredRooms now1 st0) !! roomCode) as [r|] eqn:Hr; [|done].
    apply rooms_cleanup in Hr as [Hr _]. rewrite Hroom0 in Hr. injection Hr as <-.
    destruct (negb _); [done|].
    destruct (findUser sid2 (participants room)) as [user|]; [|done].
    injection Hsend' as <- <-. unfold getMessages, putRoom, setRooms.
    cbn [rooms messageIdCounter cleanupExpiredRooms]. rewrite lookup_insert_eq.
    split; [done|]. by rewrite Hst0. }
  destruct Hst1 as [Hmsgs Hcnt].
  assert (Hresume : getMessages roomCode (joinRoom_resume caller roomCode room sid now2 st1).2
                      = messages room
                    ∧ messageIdCounter (joinRoom_resume caller roomCode room sid now2 st1).2
                      = messageIdCounter st1).
  { unfold joinRoom_resume.
    pose proof (counter_createOrGetUser sid caller now2 st1) as Hc.
    destruct (createOrGetUser sid caller now2 st1) as [user st1']. cbn [snd] in Hc.
    apply findUser_None in Hnew. rewrite Hnew. cbn [snd].
    unfold getMessages, putRoom, setRooms. cbn [rooms messageIdCounter].
    by rewrite lookup_insert_eq. }
  destruct Hresume as [Hdropped Hcnt2].
  split; [done|]. split; [done|]. split; [by rewrite Hcnt2|].
  intros a0 tr pool Hrun.
  assert (H1 : run a0 tr {| store := st0; inflight := JoinSession caller roomCode room :: pool |}).
  { eapply run_silent; [exact Hrun|].
    by apply (step_join_await {| store := st; inflight := pool |} caller roomCode now0 room st0). }
  assert (H2 : run a0 (tr ++ [RSend (SendOk m)])
                 {| store := st1; inflight := JoinSession caller roomCode room :: pool |}).
  { eapply run_app; [exact H1|].
    by apply (step_send {| store := st0; inflight := _ |} c2 roomCode sid2 text now1). }
  replace (tr ++ [RSend (SendOk m); RJoin (joinRoom_resume caller roomCode room sid now2 st1).1])
    with ((tr ++ [RSend (SendOk m)]) ++ [RJoin (joinRoom_resume caller roomCode room sid now2 st1).1])
    by (by rewrite <- app_assoc).
  eapply run_app; [exact H2|].
  apply (step_join_resume {| store := st1; inflight := _ |} [] pool caller roomCode room sid now2);
    [reflexivity | apply surjective_pairing].
Qed.

Lemma joinRoom_resume_drops_message_witness :
  getMessages "AB12CD" (sendMessage "alice" "AB12CD" "SESSIONAAAAA" "again" 2
                          (cleanupExpiredRooms 2 st_hi)).2
    = messages room_hi
      ++ [{| id := 1; sender := "SESSIONAAAAA"; senderName := "User 1";
             content := "again"; timestamp := 2 |}]
  ∧ getMessages "AB12CD"
      (joinRoom_resume "bob" "AB12CD" room_hi "SESSIONBBBBB" 2
         (sendMessage "alice" "AB12CD" "SESSIONAAAAA" "again" 2
            (cleanupExpiredRooms 2 st_hi)).2).2
    = messages room_hi.
Proof.
  destruct (joinRoom_resume_drops_message "bob" "alice" "AB12CD" 2 "SESSIONBBBBB" 2
              "SESSIONAAAAA" "again" 2 st_hi room_hi (cleanupExpiredRooms 2 st_hi)
              {| id := 1; sender := "SESSIONAAAAA"; senderName := "User 1";
                 content := "again"; timestamp := 2 |}
              (sendMessage "alice" "AB12CD" "SESSIONAAAAA" "again" 2
                 (cleanupExpiredRooms 2 st_hi)).2)
    as (H1 & H2 & _).
  - vm_compute. reflexivity.
  - vm_compute. reflexivity.
  - vm_compute. intros H. repeat (apply elem_of_cons in H as [H | H]; [discriminate|]).
    by apply elem_of_nil in H.
  - split; [exact H1 | exact H2].
Defined.

(** X17: [sendMessage] reads the rooms and the message counter only: on two
    states with the same rooms and the same message counter it gives the
    same answer and leaves the same rooms and counter, whatever the session
    registry and the user counter hold.  A participant whose session record
    was swept still sends. *)
Theorem sendMessage_ignores_registry caller roomCode sid text now st st' :
  rooms st = rooms st' →
  messageIdCounter st = messageIdCounter st' →
  (sendMessage caller roomCode sid text now st).1
    = (sendMessage caller roomCode sid text now st').1
  ∧ rooms (sendMessage caller roomCode sid text now st).2
    = rooms (sendMessage caller roomCode sid text now st').2
  ∧ messageIdCounter (sendMessage caller roomCode sid text now st).2
    = messageIdCounter (sendMessage caller roomCode sid text now st').2.
Proof.
  intros Hrooms Hcnt. unfold sendMessage, isRoomValid.
  assert (Hswept : rooms (cleanupExpiredRooms now st) = rooms (cleanupExpiredRooms now st'))
    by (cbn [cleanupExpiredRooms rooms]; by rewrite Hrooms).
  assert (Hc : messageIdCounter (cleanupExpiredRooms now st)
               = messageIdCounter (cleanupExpiredRooms now st')) by done.
  generalize dependent (cleanupExpiredRooms now st').
  generalize dependent (cleanupExpiredRooms now st). clear. intros s s' Hswept Hc.
  rewrite Hswept.
  destruct (rooms s' !! roomCode) as [room|]; [|done].
  destruct (now - lastActivity room <=? SESSION_TIMEOUT); cbn [negb].
  - destruct (findUser sid (participants room)) as [user|]; [|done].
    cbn [fst snd putRoom setRooms rooms messageIdCounter].
    by rewrite ?Hswept, ?Hc.
  - cbn [fst snd deleteRoom setRooms rooms messageIdCounter].
    by rewrite ?Hswept, ?Hc.
Qed.

Lemma sendMessage_ignores_registry_witness :
  (sendMessage "bob" "AB12CD" "SESSIONBBBBB" "hello" 3 st_joined).1
    = (sendMessage "bob" "AB12CD" "SESSIONBBBBB" "hello" 3
         {| rooms := rooms st_joined; sessions := ∅;
            messageIdCounter := messageIdCounter st_joined; userCounter := 7 |}).1.
Proof.
  destruct (sendMessage_ignores_registry "bob" "AB12CD" "SESSIONBBBBB" "hello" 3 st_joined
              {| rooms := rooms st_joined; sessions := ∅;
                 messageIdCounter := messageIdCounter st_joined; userCounter := 7 |})
    as [H _]; [reflexivity | reflexivity | exact H].
Defined.

(** X18: [leaveRoom] and [endRoom] touch nothing but the room under the
    given code: every other code reads as before (they run no sweep, so
    stale rooms and stale session records stay), and the session registry
    and both counters are unchanged. *)
Theorem leaveRoom_endRoom_frame caller roomCode sid now st :
  (∀ roomCode', roomCode' ≠ roomCode →
     rooms (leaveRoom caller roomCode sid now st).2 !! roomCode' = rooms st !! roomCode'
     ∧ rooms (endRoom caller roomCode sid st).2 !! roomCode' = rooms st !! roomCode')
  ∧ sessions (leaveRoom caller roomCode sid now st).2 = sessions st
  ∧ sessions (endRoom caller roomCode sid st).2 = sessions st
  ∧ messageIdCounter (leaveRoom caller roomCode sid now st).2 = messageIdCounter st
  ∧ messageIdCounter (endRoom caller roomCode sid st).2 = messageIdCounter st
  ∧ userCounter (leaveRoom caller roomCode sid now st).2 = userCounter st
  ∧ userCounter (endRoom caller roomCode sid st).2 = userCounter st.
Proof.
  unfold leaveRoom, endRoom. destruct (rooms st !! roomCode) as [room|]; [|by repeat split].
  destruct (_ =? _)%nat, (bool_decide _);
    cbn [snd putRoom deleteRoom setRooms rooms sessions messageIdCounter userCounter];
    (split; [|done]); intros roomCode' Hne;
    by rewrite ?lookup_insert_ne, ?lookup_delete_ne.
Qed.

Lemma leaveRoom_endRoom_frame_witness :
  rooms (leaveRoom "bob" "AB12CD" "SESSIONBBBBB" 3 st_joined).2 !! "ZZ99ZZ"
    = rooms st_joined !! "ZZ99ZZ"
  ∧ rooms (endRoom "bob" "AB12CD" "SESSIONBBBBB" st_joined).2 !! "ZZ99ZZ"
    = rooms st_joined !! "ZZ99ZZ".
Proof.
  destruct (leaveRoom_endRoom_frame "bob" "AB12CD" "SESSIONBBBBB" 3 st_joined) as [H _].
  apply (H "ZZ99ZZ"). discriminate.
Defined.

End ComposeFacts.

(** ** More invariants of the actor *)

Section MoreExecutionFacts.
Local Open Scope N_scope.

Local Abbreviation counter a := (messageIdCounter (store a)).

(** A transition either returns no message id and keeps the counter, or
    returns the counter as id and advances it by one. *)
Lemma step_counter a o b :
  step a o b →
  (sentIds (option_list o) = [] ∧ counter b = counter a)
  ∨ (sentIds (option_list o) = [counter a] ∧ counter b = counter a + 1).
Proof.
  intros Hstep.
  destruct Hstep as
    [ a caller now
    | a l1 l2 caller sid now user st' Hin Hcall
    | a l1 l2 sid user attempts roomCode Hin Htest
    | a l1 l2 sid user attempts roomCode now r st' Hin Htest Hcall
    | a caller roomCode now room st' Hcall
    | a caller roomCode now r st' Hcall
    | a l1 l2 caller roomCode room sid now r st' Hin Hcall
    | a caller roomCode sid text now r st' Hcall
    | a caller roomCode sid now b st' Hcall
    | a caller roomCode sid b st' Hcall
    | a now ]; cbn [store].
  - by left.
  - left. split; [done|].
    pose proof (counter_createOrGetUser sid caller now (store a)) as H. by rewrite Hcall in H.
  - by left.
  - left. split; [done|]. unfold createRoom_finish in Hcall.
    destruct (10 <=? attempts)%nat; by injection Hcall as _ <-.
  - left. split; [done|]. unfold joinRoom_enter in Hcall.
    destruct (rooms _ !! roomCode); [|done]. destruct (negb _); [done|].
    by injection Hcall as _ <-.
  - left. split; [done|]. unfold joinRoom_enter in Hcall.
    destruct (rooms _ !! roomCode); [|by injection Hcall as _ <-].
    destruct (negb _); [|done]. by injection Hcall as _ <-.
  - left. split; [done|]. unfold joinRoom_resume in Hcall.
    pose proof (counter_createOrGetUser sid caller now (store a)) as H.
    destruct (createOrGetUser sid caller now (store a)) as [user st1]. cbn [snd] in H.
    destruct (findUser sid (participants room)); by injection Hcall as _ <-.
  - unfold sendMessage in Hcall.
    destruct (rooms _ !! roomCode) as [room|]; [|left; by injection Hcall as <- <-].
    destruct (negb _); [left; by injection Hcall as <- <-|].
    destruct (findUser sid _) as [user|]; injection Hcall as <- <-; [by right | by left].
  - left. split; [done|]. unfold leaveRoom in Hcall.
    destruct (rooms _ !! roomCode); [|by injection Hcall as _ <-].
    destruct (_ =? _)%nat; by injection Hcall as _ <-.
  - left. split; [done|]. unfold endRoom in Hcall.
    destruct (rooms _ !! roomCode); [|by injection Hcall as _ <-].
    case_bool_decide; by injection Hcall as _ <-.
  - by left.
Qed.

(** X19: message ids are handed out without gaps: along every execution of
    the actor from its initial state the [i]-th successful [sendMessage]
    (counting from 0) returns the id [i], and the message counter equals the
    number of successful sends so far; failed sends and all other calls
    consume no id. *)
Theorem message_ids_without_gaps tr a :
  run actor0 tr a →
  messageIdCounter (store a) = N.of_nat (length (sentIds tr))
  ∧ ∀ i, (i < length (sentIds tr))%nat → sentIds tr !! i = Some (N.of_nat i).
Proof.
  remember actor0 as a0 eqn:Ha0. induction 1 as [a | a tr b o c Hrun IH Hstep].
  - subst a. split; [done|]. cbn. lia.
  - destruct (IH Ha0) as [Hcnt Hids]. unfold sentIds in *. rewrite omap_app.
    destruct (step_counter _ _ _ Hstep) as [[Hnone Hsame] | [Hone Hnext]];
      unfold sentIds in *.
    + rewrite Hnone, app_nil_r. split; [by rewrite Hsame | done].
    + rewrite Hone, length_app. cbn [length]. split; [rewrite Hnext, Hcnt; lia|].
      intros i Hi. destruct (decide (i < length (omap sentId tr))%nat) as [Hlt | Hge].
      * rewrite lookup_app_l by done. by apply Hids.
      * assert (i = length (omap sentId tr)) as -> by lia.
        rewrite lookup_app_r by done. rewrite Nat.sub_diag. cbn. by rewrite Hcnt.
Qed.

Lemma message_ids_without_gaps_witness :
  messageIdCounter (store sample_actor) = 2
  ∧ sentIds sample_trace !! 1%nat = Some 1.
Proof.
  destruct (message_ids_without_gaps sample_trace sample_actor sample_run) as [Hcnt Hids].
  split; [exact Hcnt|]. apply (Hids 1%nat). vm_compute. lia.
Defined.

Lemma Forall_code_split (l1 l2 : list Pending) p :
  Forall pending_code_ok (l1 ++ p :: l2) →
  pending_code_ok p ∧ Forall pending_code_ok (l1 ++ l2)
  ∧ ∀ p', pending_code_ok p' → Forall pending_code_ok (l1 ++ p' :: l2).
Proof.
  rewrite Forall_app, Forall_cons. intros (H1 & Hp & H2).
  split; [done|]. split; [by apply Forall_app|].
  intros p' Hp'. apply Forall_app. split; [done|]. by apply Forall_cons.
Qed.

Lemma codes_ok_step a o b : codes_ok a → step a o b → codes_ok b.
Proof.
  intros [Hst Hpend] Hstep.
  assert (Hsweep : ∀ now roomCode room,
            rooms (cleanupExpiredRooms now (store a)) !! roomCode = Some room →
            code room = roomCode).
  { intros now roomCode room [H _]%rooms_cleanup. by apply Hst. }
  assert (Hput : ∀ (rs : gmap string Room) roomCode room,
            (∀ k r, rs !! k = Some r → code r = k) → code room = roomCode →
            ∀ k r, <[roomCode := room]> rs !! k = Some r → code r = k).
  { intros rs roomCode room Hrs Hcode k r. destruct (decide (roomCode = k)) as [<- | Hne].
    - rewrite lookup_insert_eq. by intros [= <-].
    - rewrite lookup_insert_ne by done. apply Hrs. }
  assert (Hdel : ∀ (rs : gmap string Room) roomCode,
            (∀ k r, rs !! k = Some r → code r = k) →
            ∀ k r, delete roomCode rs !! k = Some r → code r = k).
  { intros rs roomCode Hrs k r. destruct (decide (roomCode = k)) as [<- | Hne].
    - by rewrite lookup_delete_eq.
    - rewrite lookup_delete_ne by done. apply Hrs. }
  destruct Hstep as
    [ a caller now
    | a l1 l2 caller sid now user st' Hin Hcall
    | a l1 l2 sid user attempts roomCode Hin Htest
    | a l1 l2 sid user attempts roomCode now r st' Hin Htest Hcall
    | a caller roomCode now room st' Hcall
    | a caller roomCode now r st' Hcall
    | a l1 l2 caller roomCode room sid now r st' Hin Hcall
    | a caller roomCode sid text now r st' Hcall
    | a caller roomCode sid now b st' Hcall
    | a caller roomCode sid b st' Hcall
    | a now ]; unfold codes_ok; cbn [store inflight];
    try (rewrite Hin in Hpend; apply Forall_code_split in Hpend as (Hp & Hrest & Hins));
    try (split; [|done]).
  - split; [apply Hsweep | by apply Forall_cons].
  - split; [|by apply Hins].
    pose proof (rooms_createOrGetUser sid caller now (store a)) as H.
    rewrite Hcall in H. cbn [snd] in H. by rewrite H.
  - split; [done | by apply Hins].
  - unfold createRoom_finish in Hcall.
    destruct (10 <=? attempts)%nat; injection Hcall as _ <-; [done|].
    unfold putRoom, setRooms. cbn [rooms]. by apply Hput.
  - unfold joinRoom_enter in Hcall.
    destruct (rooms _ !! roomCode) as [r|] eqn:Hr; [|done].
    destruct (negb _); [done|]. injection Hcall as <- <-.
    split; [apply Hsweep|]. apply Forall_cons. split; [|done]. by eapply Hsweep.
  - unfold joinRoom_enter in Hcall.
    destruct (rooms _ !! roomCode) as [room|] eqn:Hr;
      [|injection Hcall as _ <-; apply Hsweep].
    destruct (negb _); [|done]. injection Hcall as _ <-.
    unfold deleteRoom, setRooms. cbn [rooms]. apply Hdel, (Hsweep now).
  - unfold joinRoom_resume in Hcall.
    pose proof (rooms_createOrGetUser sid caller now (store a)) as H.
    destruct (createOrGetUser sid caller now (store a)) as [user st1]. cbn [snd] in H.
    destruct (findUser sid (participants room)); injection Hcall as _ <-.
    + by rewrite H.
    + unfold putRoom, setRooms. cbn [rooms]. apply Hput; [by rewrite H | exact Hp].
  - unfold sendMessage in Hcall.
    destruct (rooms _ !! roomCode) as [room|] eqn:Hr;
      [|injection Hcall as _ <-; apply Hsweep].
    destruct (negb _).
    { injection Hcall as _ <-. unfold deleteRoom, setRooms. cbn [rooms].
      apply Hdel, (Hsweep now). }
    destruct (findUser sid _) as [user|]; injection Hcall as _ <-; [|apply Hsweep].
    unfold putRoom, setRooms. cbn [rooms]. apply Hput; [apply (Hsweep now) | cbn [code]; by eapply Hsweep].
  - unfold leaveRoom in Hcall.
    destruct (rooms _ !! roomCode) as [room|] eqn:Hr; [|by injection Hcall as _ <-].
    destruct (_ =? _)%nat; injection Hcall as _ <-;
      unfold putRoom, deleteRoom, setRooms; cbn [rooms]; [by apply Hdel|].
    apply Hput; [done | cbn [code]; by apply Hst].
  - unfold endRoom in Hcall.
    destruct (rooms _ !! roomCode) as [room|]; [|by injection Hcall as _ <-].
    case_bool_decide; injection Hcall as _ <-; [|done].
    unfold deleteRoom, setRooms. cbn [rooms]. by apply Hdel.
  - apply (Hsweep now).
Qed.

(** X20: in every state the actor reaches, a room is stored under its own
    code: what [getRoom] returns for a code carries that code, also after
    joins that resumed late put their room back. *)
Theorem rooms_stored_under_own_code tr a :
  run actor0 tr a →
  ∀ roomCode room, getRoom roomCode (store a) = Some room → code room = roomCode.
Proof.
  intros Hrun.
  assert (Hok : codes_ok a).
  { remember actor0 as a0 eqn:Ha0. induction Hrun as [a | a tr b o c Hrun IH Hstep].
    - subst a. split; [|constructor]. intros k r H. cbn in H. by rewrite lookup_empty in H.
    - eapply codes_ok_step; [by apply IH | done]. }
  apply Hok.
Qed.

Lemma rooms_stored_under_own_code_witness : code room_replied = "AB12CD".
Proof.
  apply (rooms_stored_under_own_code sample_trace sample_actor sample_run "AB12CD" room_replied).
  vm_compute. reflexivity.
Defined.

Lemma occupied_step a o b :
  (∀ roomCode room, rooms (store a) !! roomCode = Some room → participants room ≠ []) →
  step a o b →
  ∀ roomCode room, rooms (store b) !! roomCode = Some room → participants room ≠ [].
Proof.
  intros Hst Hstep.
  assert (Hsweep : ∀ now roomCode room,
            rooms (cleanupExpiredRooms now (store a)) !! roomCode = Some room →
            participants room ≠ []).
  { intros now roomCode room [H _]%rooms_cleanup. by apply Hst in H. }
  assert (Hput : ∀ (rs : gmap string Room) roomCode room,
            (∀ k r, rs !! k = Some r → participants r ≠ []) → participants room ≠ [] →
            ∀ k r, <[roomCode := room]> rs !! k = Some r → participants r ≠ []).
  { intros rs roomCode room Hrs Hroom k r. destruct (decide (roomCode = k)) as [<- | Hne].
    - rewrite lookup_insert_eq. by intros [= <-].
    - rewrite lookup_insert_ne by done. apply Hrs. }
  assert (Hdel : ∀ (rs : gmap string Room) roomCode,
            (∀ k r, rs !! k = Some r → participants r ≠ []) →
            ∀ k r, delete roomCode rs !! k = Some r → participants r ≠ []).
  { intros rs roomCode Hrs k r. destruct (decide (roomCode = k)) as [<- | Hne].
    - by rewrite lookup_delete_eq.
    - rewrite lookup_delete_ne by done. apply Hrs. }
  destruct Hstep as
    [ a caller now
    | a l1 l2 caller sid now user st' Hin Hcall
    | a l1 l2 sid user attempts roomCode Hin Htest
    | a l1 l2 sid user attempts roomCode now r st' Hin Htest Hcall
    | a caller roomCode now room st' Hcall
    | a caller roomCode now r st' Hcall
    | a l1 l2 caller roomCode room sid now r st' Hin Hcall
    | a caller roomCode sid text now r st' Hcall
    | a caller roomCode sid now b st' Hcall
    | a caller roomCode sid b st' Hcall
    | a now ]; cbn [store].
  - apply (Hsweep now).
  - pose proof (rooms_createOrGetUser sid caller now (store a)) as H.
    rewrite Hcall in H. cbn [snd] in H. by rewrite H.
  - done.
  - unfold createRoom_finish in Hcall.
    destruct (10 <=? attempts)%nat; injection Hcall as _ <-; [done|].
    unfold putRoom, setRooms. cbn [rooms]. by apply Hput.
  - unfold joinRoom_enter in Hcall.
    destruct (rooms _ !! roomCode) as [r|]; [|done].
    destruct (negb _); [done|]. injection Hcall as _ <-. apply (Hsweep now).
  - unfold joinRoom_enter in Hcall.
    destruct (rooms _ !! roomCode) as [room|];
      [|injection Hcall as _ <-; apply (Hsweep now)].
    destruct (negb _); [|done]. injection Hcall as _ <-.
    unfold deleteRoom, setRooms. cbn [rooms]. apply Hdel, (Hsweep now).
  - unfold joinRoom_resume in Hcall.
    pose proof (rooms_createOrGetUser sid caller now (store a)) as H.
    destruct (createOrGetUser sid caller now (store a)) as [user st1]. cbn [snd] in H.
    destruct (findUser sid (participants room)); injection Hcall as _ <-.
    + by rewrite H.
    + unfold putRoom, setRooms. cbn [rooms]. apply Hput; [by rewrite H|].
      cbn [participants]. by destruct (participants room).
  - unfold sendMessage in Hcall.
    destruct (rooms _ !! roomCode) as [room|] eqn:Hr;
      [|injection Hcall as _ <-; apply (Hsweep now)].
    destruct (negb _).
    { injection Hcall as _ <-. unfold deleteRoom, setRooms. cbn [rooms].
      apply Hdel, (Hsweep now). }
    destruct (findUser sid _) as [user|]; injection Hcall as _ <-; [|apply (Hsweep now)].
    unfold putRoom, setRooms. cbn [rooms].
    apply Hput; [apply (Hsweep now) | cbn [participants]; by eapply Hsweep].
  - unfold leaveRoom in Hcall.
    destruct (rooms _ !! roomCode) as [room|] eqn:Hr; [|by injection Hcall as _ <-].
    destruct (Nat.eqb_spec (length (filter (λ u, sessionId u ≠ sid) (participants room))) 0)
      as [|Hlen]; injection Hcall as _ <-;
      unfold putRoom, deleteRoom, setRooms; cbn [rooms]; [by apply Hdel|].
    apply Hput; [done|]. cbn [participants]. intros Hnil. by rewrite Hnil in Hlen.
  - unfold endRoom in Hcall.
    destruct (rooms _ !! roomCode) as [room|]; [|by injection Hcall as _ <-].
    case_bool_decide; injection Hcall as _ <-; [|done].
    unfold deleteRoom, setRooms. cbn [rooms]. by apply Hdel.
  - apply (Hsweep now).
Qed.

(** X21: in every state the actor reaches, every stored room has at least
    one participant: a room is created with one, joins only add, and the
    [leaveRoom] that would remove the last one deletes the room instead. *)
Theorem stored_rooms_have_participants tr a :
  run actor0 tr a →
  ∀ roomCode room, getRoom roomCode (store a) = Some room → participants room ≠ [].
Proof.
  remember actor0 as a0 eqn:Ha0. induction 1 as [a | a tr b o c Hrun IH Hstep].
  - subst a. intros k r H. unfold getRoom in H.
    cbn [store actor0 rooms initial] in H. by rewrite lookup_empty in H.
  - eapply occupied_step; [by apply IH | done].
Qed.

Lemma stored_rooms_have_participants_witness : participants room_replied ≠ [].
Proof.
  apply (stored_rooms_have_participants sample_trace sample_actor sample_run
           "AB12CD" room_replied).
  vm_compute. reflexivity.
Defined.

End MoreExecutionFacts.
